(** * The reference-profile injection generator

    A shallow embedding of [examples/2D_detonation/ic2d.py], the script that
    reads the stored 1-D reactive shock tube run and writes two Fortran
    include files: [ic_decl.f90] (one static array per destination variable)
    and [ic_def.f90] (the [case (666)] branch that looks the arrays up).

    The script is a sequence of statements over mutable state (the [case]
    object, the module-level variable [nx], two files), so it is modelled in
    a state-and-exception monad.  The dataset library [mfc.viz] is not part
    of the script: it is an interface here, and every result is proved for
    an arbitrary implementation of it. *)

From stdpp Require Import gmap strings list fin_maps pretty.
From Stdlib Require Import Ascii ZArith.
From Stdlib Require Import Floats.PrimFloat Floats.SpecFloat Floats.FloatOps Uint63.
From Stdlib Require Floats.FloatAxioms.

Set Warnings "-inexact-float".

Local Open Scope Z_scope.

(** ** Python values the script handles *)

(** The newline character written as [\n] in the script's string literals. *)
Definition nl : string := String "010"%char EmptyString.

(** A subscript: [get_data()[0]] uses an integer, [...[str(var_init)]] a string. *)
Inductive Key :=
| KInt (z : Z)
| KStr (s : string).

(** Why [open(path, "w")] can fail: the directory of the path is missing,
    the file or the directory may not be written, or the path is a
    directory.  Each is a subclass of [OSError]. *)
Inductive OpenError :=
| FileNotFoundError
| PermissionError
| IsADirectoryError.

(** The exceptions that can leave the script. *)
Inductive Exception :=
| KeyError (k : Key)          (* a subscript that the container does not have *)
| NameError (name : string)   (* a module-level variable read before assignment *)
| CaseError (msg : string)    (* whatever [load_variable] raises *)
| OSError (kind : OpenError) (path : string). (* an [open] that fails *)

(** What the list [elems] holds: the strings [str(x)] of the samples, or the
    float literal [0.0] of the zero-filled profile (the only float the script
    itself creates). *)
Inductive PyVal :=
| PyStr (s : string)
| PyFloatZero.

(** An f-string replacement field [{element}]: a string stands for itself,
    the float [0.0] is formatted as [0.0]. *)
Definition format (v : PyVal) : string :=
  match v with
  | PyStr s => s
  | PyFloatZero => "0.0"
  end.

(** ** The dataset interface

    The class [mfc.viz.Case] is imported by the script and defined elsewhere
    in the repository.  The script uses two of its methods:
    [load_variable(name, kind)] prepares a field for access (it may raise,
    and it changes the object), and [get_data()] returns the snapshots
    loaded so far, by time step, each mapping a field name to its array of
    samples.  Everything below is parametric in an implementation of these
    two. *)
Class CaseAPI (Sample Case : Type) := {
  load_variable : string → string → Case → Exception + Case;
  get_data : Case → gmap Z (gmap string (list Sample));
}.

(** One interaction with the dataset, as recorded in the call log. *)
Inductive Access :=
| ALoad (name kind : string)        (* [case.load_variable(name, kind)] *)
| ARead (step : Z) (name : string). (* [case.get_data()[step][name]] *)

(** ** Program state and the monad *)

Record State (Case : Type) := mkState {
  st_case : Case;                 (* the object bound to [case] *)
  st_nx : option Z;               (* the variable [nx]; [None] while unbound *)
  st_files : gmap string string;  (* the file system: path to content *)
  st_calls : list Access;         (* dataset accesses so far, oldest first *)
}.
Arguments mkState {Case}.
Arguments st_case {Case}.
Arguments st_nx {Case}.
Arguments st_files {Case}.
Arguments st_calls {Case}.

Inductive Outcome (A : Type) :=
| Ok (a : A)
| Raise (e : Exception).
Arguments Ok {A}.
Arguments Raise {A}.

(** A statement either finishes or raises; the state survives both ways, as
    what was written to a file before an exception stays on disk when the
    [with] block closes it. *)
Definition M (Case A : Type) : Type := State Case → Outcome A * State Case.

#[global] Instance M_ret {Case} : MRet (M Case) :=
  λ A a σ, (Ok a, σ).

#[global] Instance M_bind {Case} : MBind (M Case) :=
  λ A B k m σ,
    match m σ with
    | (Ok a, σ') => k a σ'
    | (Raise e, σ') => (Raise e, σ')
    end.

Definition raise {Case A} (e : Exception) : M Case A :=
  λ σ, (Raise e, σ).

Definition get_state {Case} : M Case (State Case) :=
  λ σ, (Ok σ, σ).

Definition put_state {Case} (σ : State Case) : M Case unit :=
  λ _, (Ok (), σ).

(** [for x in xs: body] *)
Fixpoint for_each {Case A} (xs : list A) (body : A → M Case unit) : M Case unit :=
  match xs with
  | [] => mret ()
  | x :: xs' => body x;; for_each xs' body
  end.

(** [d[k]] on a dictionary. *)
Definition subscript {Case K V} `{Countable K} (key : K → Key)
    (d : gmap K V) (k : K) : M Case V :=
  match d !! k with
  | Some v => mret v
  | None => raise (KeyError (key k))
  end.

(** [enumerate(l)] *)
Fixpoint enumerate_from {A} (i : Z) (l : list A) : list (Z * A) :=
  match l with
  | [] => []
  | x :: l' => (i, x) :: enumerate_from (i + 1) l'
  end.
Definition enumerate {A} (l : list A) : list (Z * A) := enumerate_from 0 l.

(** [len(l)] *)
Definition len {A} (l : list A) : Z := Z.of_nat (length l).

(** [[x] * n]: a non-positive count gives the empty list. *)
Definition list_mul {A} (x : A) (n : Z) : list A := replicate (Z.to_nat n) x.

(** [range(a, b)] and the script's own [incrange]. *)
Definition range (a b : Z) : list Z := seqZ a (b - a).
Definition incrange (a b : Z) : list Z := range a (b + 1).

(** [tqdm(it, desc=...)] yields the elements of [it] unchanged; the progress
    bar goes to the terminal and is not modelled. *)
Definition tqdm {A} (it : list A) (desc : string) : list A := it.

(** The parsed command line.  The parser knows one option, [--scale], a
    float that defaults to 1. *)
Record Namespace := { scale : float }.

Definition parse_args (scale_option : option float) : Namespace :=
  {| scale := default 1%float scale_option |}.

Section Script.
Context {Sample Case : Type} `{!CaseAPI Sample Case}.
(** Python's [str] on one sample of the dataset. *)
Variable str : Sample → string.

(** *** Primitive statements *)

Definition log (a : Access) : M Case unit :=
  σ ← get_state;
  put_state (mkState (st_case σ) (st_nx σ) (st_files σ) (st_calls σ ++ [a])).

(** [case.load_variable(name, kind)] *)
Definition case_load_variable (name kind : string) : M Case unit :=
  log (ALoad name kind);;
  σ ← get_state;
  match load_variable name kind (st_case σ) with
  | inl e => raise e
  | inr c' => put_state (mkState c' (st_nx σ) (st_files σ) (st_calls σ))
  end.

(** [case.get_data()[step][name]] *)
Definition case_data (step : Z) (name : string) : M Case (list Sample) :=
  log (ARead step name);;
  σ ← get_state;
  snapshot ← subscript KInt (get_data (st_case σ)) step;
  subscript KStr snapshot name.

(** [nx = n] and reading [nx]. *)
Definition set_nx (n : Z) : M Case unit :=
  σ ← get_state;
  put_state (mkState (st_case σ) (Some n) (st_files σ) (st_calls σ)).
Definition get_nx : M Case Z :=
  σ ← get_state;
  match st_nx σ with
  | Some n => mret n
  | None => raise (NameError "nx")
  end.

(** [open(path, "w")] on a path that can be opened for writing: the file is
    created or truncated; the handle is the path. *)
Definition open_w (path : string) : M Case string :=
  σ ← get_state;
  put_state (mkState (st_case σ) (st_nx σ) (<[path := ""]> (st_files σ)) (st_calls σ));;
  mret path.

(** [open(path, "w")] in general.  Whether a path can be opened for writing
    depends on the directories and permissions around it, which the script
    never changes: [tree path] is [None] when it can, and the reason when it
    cannot.  An [open] that fails raises and leaves the file system as it
    was: no file is created and none is truncated. *)
Definition open_w_in (tree : string → option OpenError) (path : string) : M Case string :=
  match tree path with
  | None => open_w path
  | Some kind => raise (OSError kind path)
  end.

(** [f.write(s)] appends to the file. *)
Definition write (f : string) (s : string) : M Case unit :=
  σ ← get_state;
  put_state (mkState (st_case σ) (st_nx σ)
               (<[f := default "" (st_files σ !! f) +:+ s]> (st_files σ))
               (st_calls σ)).

(** [with open(path, "w") as f: body], on a path that can be opened and in
    general. *)
Definition with_open (path : string) (body : string → M Case unit) : M Case unit :=
  f ← open_w path; body f.
Definition with_open_in (tree : string → option OpenError) (path : string)
    (body : string → M Case unit) : M Case unit :=
  f ← open_w_in tree path; body f.

(** *** The script *)

Definition num_eqns : Z := 15.
Definition num_dims : Z := 2.

Definition ic_decl_path : string := "examples/2D_detonation/ic_decl.f90".
Definition ic_def_path : string := "examples/2D_detonation/ic_def.f90".

(** [var_init = var_wrt if var_wrt < 3 else var_wrt - 1] *)
Definition var_init (var_wrt : Z) : Z :=
  if bool_decide (var_wrt < 3) then var_wrt else var_wrt - 1.

(** The body of the inner loop over [enumerate(elems)]. *)
Definition write_element (f : string) (elems : list PyVal) (ie : Z * PyVal) : M Case unit :=
  let '(i, element) := ie in
  if bool_decide (i = len elems - 1) then
    write f (format element +:+ " &" +:+ nl)
  else
    write f (format element +:+ ", &" +:+ nl).

(** The body of the first loop, for one [var_wrt]. *)
Definition declare (f : string) (var_wrt : Z) : M Case unit :=
  let var_init := var_init var_wrt in
  case_load_variable (pretty var_init) ("prim." +:+ pretty var_init);;
  d0 ← case_data 0 (pretty var_init);
  set_nx (len d0);;
  elems ← (if bool_decide (var_wrt ≠ 3) then
             d ← case_data 14694 (pretty var_init);
             mret (PyStr ∘ str <$> d)
           else
             nx ← get_nx;
             mret (list_mul PyFloatZero nx));
  nx ← get_nx;
  write f ("real(kind(0d0)) :: var" +:+ pretty var_wrt +:+
           "(0:" +:+ pretty (nx - 1) +:+ ") = [ &" +:+ nl);;
  for_each (enumerate elems) (write_element f elems);;
  write f ("]" +:+ nl).

(** The body of the second loop. *)
Definition assign (f : string) (var_wrt : Z) : M Case unit :=
  nx ← get_nx;
  write f ("    q_prim_vf(" +:+ pretty var_wrt +:+ ")%sf(i, j, 0) = var" +:+
           pretty var_wrt +:+ "(min(i_offset+i, " +:+ pretty (nx - 1) +:+ "))" +:+ nl).

(** The bodies of the two [with] blocks. *)
Definition decl_body (f : string) : M Case unit :=
  write f ("integer :: i_offset" +:+ nl);;
  for_each (tqdm (incrange 1 (num_eqns + num_dims - 1)) "Loading and Generating Arrays")
           (declare f).

Definition def_body (f : string) : M Case unit :=
  write f ("case (666)" +:+ nl);;
  nx ← get_nx;
  write f ("    i_offset = int(x_cc(0)/0.12d0*" +:+ pretty (nx - 1) +:+ ")" +:+ nl);;
  for_each (tqdm (range 1 (num_eqns + num_dims - 1)) "Loading Conserved Variables")
           (assign f).

(** The two [with] blocks where both files can be opened. *)
Definition decl_pass : M Case unit := with_open ic_decl_path decl_body.
Definition def_pass : M Case unit := with_open ic_def_path def_body.

(** The whole script, after [args = parser.parse_args()], where both files
    can be opened for writing: what it then does depends on the dataset
    alone. *)
Definition main (args : Namespace) : M Case unit :=
  decl_pass;; def_pass.

(** The whole script in any directory tree: either [open] may raise. *)
Definition main_in (tree : string → option OpenError) (args : Namespace) : M Case unit :=
  with_open_in tree ic_decl_path decl_body;; with_open_in tree ic_def_path def_body.

(** The state the statements start from: [case] freshly constructed, [nx]
    unbound, the file system as found. *)
Definition initial (c : Case) (fs : gmap string string) : State Case :=
  mkState c None fs [].

End Script.

(** ** What the script reads: the dataset as the loop meets it *)

Section Dataset.
Context {Sample Case : Type} `{!CaseAPI Sample Case}.

(** The call [case.load_variable(f"{var_init}", f"prim.{var_init}")] of the
    iteration for [v]. *)
Definition load_for (c : Case) (v : Z) : Exception + Case :=
  load_variable (pretty (var_init v)) ("prim." +:+ pretty (var_init v)) c.

(** The [case] object once the iterations [1..v] have loaded their fields
    (a load that raises leaves the object as it was). *)
Definition case_at (c : Case) (v : Z) : Case :=
  foldl (λ c u, match load_for c u with inr c' => c' | inl _ => c end) c (seqZ 1 v).

(** [d[step][name]] on the snapshots, with the exception a miss raises. *)
Definition lookup2 (d : gmap Z (gmap string (list Sample))) (step : Z) (name : string) :
    Exception + list Sample :=
  match d !! step with
  | None => inl (KeyError (KInt step))
  | Some snapshot =>
      match snapshot !! name with
      | None => inl (KeyError (KStr name))
      | Some a => inr a
      end
  end.

(** The array of the source field of [v] at snapshot [step], as iteration [v]
    finds it ([[]] when the dataset has none). *)
Definition field (c : Case) (v step : Z) : list Sample :=
  match lookup2 (get_data (case_at c v)) step (pretty (var_init v)) with
  | inr a => a
  | inl _ => []
  end.

(** The exception the loop body for [v] ends with, if any, when it starts
    with the object [c]: from the load, from the read at snapshot 0, or
    (unless [v = 3]) from the read at snapshot 14694. *)
Definition failure_in (c : Case) (v : Z) : option Exception :=
  match load_for c v with
  | inl e => Some e
  | inr c' =>
      match lookup2 (get_data c') 0 (pretty (var_init v)) with
      | inl e => Some e
      | inr _ =>
          if bool_decide (v ≠ 3) then
            match lookup2 (get_data c') 14694 (pretty (var_init v)) with
            | inl e => Some e
            | inr _ => None
            end
          else None
      end
  end.

(** The same for iteration [v] of a run that starts with the object [c]. *)
Definition failure_at (c : Case) (v : Z) : option Exception :=
  failure_in (case_at c (v - 1)) v.

(** The first iteration among [vs] that raises, with its exception. *)
Fixpoint first_failure (c : Case) (vs : list Z) : option (Z * Exception) :=
  match vs with
  | [] => None
  | v :: vs' =>
      match failure_at c v with
      | Some e => Some (v, e)
      | None => first_failure c vs'
      end
  end.

(** The value of [nx] that iteration [v] computes. *)
Definition nx_at (c : Case) (v : Z) : Z := len (field c v 0).

(** The dataset accesses of iteration [v], in order. *)
Definition accesses (v : Z) : list Access :=
  [ALoad (pretty (var_init v)) ("prim." +:+ pretty (var_init v));
   ARead 0 (pretty (var_init v))] ++
  (if bool_decide (v ≠ 3) then [ARead 14694 (pretty (var_init v))] else []).

End Dataset.

(** ** What the script writes: the two artifacts, structurally *)

(** One static array declaration of [ic_decl.f90]: the destination id, the
    declared upper bound is [d_nx - 1], and the literals in file order. *)
Record Decl := mkDecl {
  d_id : Z;
  d_nx : Z;
  d_literals : list string;
}.

(** The literals, one per line: each is followed by a comma and the
    continuation marker, except the last, which has the marker only. *)
Fixpoint literal_lines (lits : list string) : string :=
  match lits with
  | [] => ""
  | [x] => x +:+ " &" +:+ nl
  | x :: rest => x +:+ ", &" +:+ nl +:+ literal_lines rest
  end.

Definition render_decl (d : Decl) : string :=
  "real(kind(0d0)) :: var" +:+ pretty (d_id d) +:+ "(0:" +:+ pretty (d_nx d - 1) +:+
  ") = [ &" +:+ nl +:+ literal_lines (d_literals d) +:+ "]" +:+ nl.

Definition concat_strings (l : list string) : string := foldr String.append "" l.

Definition render_decls (ds : list Decl) : string :=
  "integer :: i_offset" +:+ nl +:+ concat_strings (render_decl <$> ds).

(** The number of elements of an array declared [(0:n-1)]. *)
Definition declared_size (d : Decl) : Z := Z.max 0 (d_nx d).

Section Artifacts.
Context {Sample Case : Type} `{!CaseAPI Sample Case}.
Variable str : Sample → string.

(** The declaration iteration [v] writes. *)
Definition decl_of (c : Case) (v : Z) : Decl :=
  mkDecl v (nx_at c v)
    (if bool_decide (v = 3) then replicate (Z.to_nat (nx_at c v)) "0.0"
     else str <$> field c v 14694).

End Artifacts.

(** ** The emitted Fortran expressions and what they compute *)

(** The expressions of [ic_def.f90].  A variable or array element is kept by
    its text; a double-precision literal by its text and its binary64 value. *)
Inductive fexp :=
| FVar (x : string)
| FInt (n : Z)
| FDouble (text : string) (value : float)
| FAdd (a b : fexp)
| FDiv (a b : fexp)
| FMul (a b : fexp)
| FMin (a b : fexp)       (* the intrinsic [min(a, b)] *)
| FToInt (a : fexp).      (* the intrinsic [int(a)] *)

Fixpoint show (e : fexp) : string :=
  match e with
  | FVar x => x
  | FInt n => pretty n
  | FDouble text _ => text
  | FAdd a b => show a +:+ "+" +:+ show b
  | FDiv a b => show a +:+ "/" +:+ show b
  | FMul a b => show a +:+ "*" +:+ show b
  | FMin a b => "min(" +:+ show a +:+ ", " +:+ show b +:+ ")"
  | FToInt a => "int(" +:+ show a +:+ ")"
  end.

(** A Fortran value: an integer (unbounded here: overflow of the solver's
    default integers is not modelled) or a double. *)
Inductive fval :=
| VInt (z : Z)
| VReal (x : float).

(** Conversion of an integer to double precision. *)
Definition float_of_Z (z : Z) : float :=
  match z with
  | Z0 => 0%float
  | Zpos p => PrimFloat.of_uint63 (Uint63.of_Z (Zpos p))
  | Zneg p => PrimFloat.opp (PrimFloat.of_uint63 (Uint63.of_Z (Zpos p)))
  end.

(** The intrinsic [int] on a real: truncation toward zero (not defined on
    infinities and NaN). *)
Definition fortran_int (x : float) : option Z :=
  match Prim2SF x with
  | S754_zero _ => Some 0
  | S754_finite s m e =>
      let z := if bool_decide (0 ≤ e) then Zpos m * 2 ^ e else Zpos m `quot` 2 ^ (- e) in
      Some (if s then - z else z)
  | _ => None
  end.

(** The mathematical floor of a real: the largest integer not above it. *)
Definition floor (x : float) : option Z :=
  match Prim2SF x with
  | S754_zero _ => Some 0
  | S754_finite s m e =>
      let z := if s then Zneg m else Zpos m in
      Some (if bool_decide (0 ≤ e) then z * 2 ^ e else z `div` 2 ^ (- e))
  | _ => None
  end.

(** The sign bit of a finite non-zero float. *)
Definition negative (x : float) : bool :=
  match Prim2SF x with
  | S754_finite s _ _ => s
  | _ => false
  end.

(** The same on the specification of a float. *)
Definition sf_negative (x : spec_float) : bool :=
  match x with
  | S754_finite s _ _ => s
  | _ => false
  end.

(** Evaluation, with Fortran's conversion of an integer operand to the real
    type of the other operand. *)
Definition as_real (v : fval) : float :=
  match v with
  | VInt z => float_of_Z z
  | VReal x => x
  end.

Definition arith (fz : Z → Z → option Z) (fr : float → float → float) (a b : fval) :
    option fval :=
  match a, b with
  | VInt x, VInt y => VInt <$> fz x y
  | _, _ => Some (VReal (fr (as_real a) (as_real b)))
  end.

Fixpoint eval (env : gmap string fval) (e : fexp) : option fval :=
  match e with
  | FVar x => env !! x
  | FInt n => Some (VInt n)
  | FDouble _ value => Some (VReal value)
  | FAdd a b =>
      x ← eval env a; y ← eval env b;
      arith (λ x y, Some (x + y)) PrimFloat.add x y
  | FDiv a b =>
      x ← eval env a; y ← eval env b;
      arith (λ x y, if bool_decide (y = 0) then None else Some (x `quot` y)) PrimFloat.div x y
  | FMul a b =>
      x ← eval env a; y ← eval env b;
      arith (λ x y, Some (x * y)) PrimFloat.mul x y
  | FMin a b =>
      x ← eval env a; y ← eval env b;
      arith (λ x y, Some (x `min` y))
            (λ x y, if PrimFloat.ltb y x then y else x) x y
  | FToInt a =>
      x ← eval env a;
      match x with
      | VInt z => Some (VInt z)
      | VReal r => VInt <$> fortran_int r
      end
  end.

(** [X_SCALE], the literal [0.12d0]. *)
Definition x_scale : fexp := FDouble "0.12d0" 0.12.

(** Reading a double-precision literal of the form [digits.digitsd0], the
    one form the script emits: its value is the double nearest to the
    decimal number.  With [n] the digits read as one integer and [k] the
    number of digits after the point, that is the correctly rounded
    quotient of [n] by [10^k] when both are doubles themselves (below
    [2^53]); longer literals and other forms are not read. *)
Fixpoint split_at (ch : ascii) (s : string) : option (string * string) :=
  match s with
  | "" => None
  | String a s' =>
      if Ascii.eqb a ch then Some ("", s')
      else '(l, r) ← split_at ch s'; Some (String a l, r)
  end.

Definition digit_value (ch : ascii) : option Z :=
  let n := Z.of_N (N_of_ascii ch) - 48 in
  if bool_decide (0 ≤ n ≤ 9) then Some n else None.

Fixpoint digits_value (acc : Z) (s : string) : option Z :=
  match s with
  | "" => Some acc
  | String ch s' => d ← digit_value ch; digits_value (10 * acc + d) s'
  end.

Definition double_literal (text : string) : option float :=
  '(whole, rest) ← split_at "." text;
  '(fraction, exponent) ← split_at "d" rest;
  n ← digits_value 0 (whole +:+ fraction);
  let scale := 10 ^ Z.of_nat (String.length fraction) in
  if bool_decide (exponent = "0" ∧ whole ≠ "" ∧ n < 2 ^ 53 ∧ scale < 2 ^ 53)
  then Some (PrimFloat.div (float_of_Z n) (float_of_Z scale))
  else None.

(** The right-hand side of the [i_offset] assignment, for a given [nx]. *)
Definition offset_exp (nx : Z) : fexp :=
  FToInt (FMul (FDiv (FVar "x_cc(0)") x_scale) (FInt (nx - 1))).

(** The subscript of every profile lookup, for a given [nx]. *)
Definition index_exp (nx : Z) : fexp :=
  FMin (FAdd (FVar "i_offset") (FVar "i")) (FInt (nx - 1)).

(** The statements of [ic_def.f90], one per line. *)
Definition offset_text (nx : Z) : string :=
  "    i_offset = " +:+ show (offset_exp nx).

Definition assign_text (nx v : Z) : string :=
  "    q_prim_vf(" +:+ pretty v +:+ ")%sf(i, j, 0) = var" +:+ pretty v +:+
  "(" +:+ show (index_exp nx) +:+ ")".

Definition branch_lines (nx : Z) (vs : list Z) : list string :=
  "case (666)" :: offset_text nx :: (assign_text nx <$> vs).

(** A text file made of the given lines, each ended by a newline. *)
Definition unlines (ls : list string) : string :=
  concat_strings ((λ l, l +:+ nl) <$> ls).

Definition render_branch (nx : Z) (vs : list Z) : string :=
  unlines (branch_lines nx vs).

(** The lines of a text: it is cut after every newline. *)
Fixpoint split_lines (s : string) : list string :=
  match s with
  | "" => []
  | String ch s' =>
      if Ascii.eqb ch "010" then "" :: split_lines s'
      else match split_lines s' with
           | [] => [String ch ""]
           | l :: ls => String ch l :: ls
           end
  end.

(** Every character of [s] satisfies [P]. *)
Fixpoint all_chars (P : ascii → bool) (s : string) : bool :=
  match s with
  | "" => true
  | String ch s' => P ch && all_chars P s'
  end.

(** The characters of a decimal integer: digits and the minus sign. *)
Definition is_numeral (ch : ascii) : bool :=
  bool_decide (ch ∈ ["0"; "1"; "2"; "3"; "4"; "5"; "6"; "7"; "8"; "9"; "-"]%char).

Definition not_newline (ch : ascii) : bool := negb (Ascii.eqb ch "010").

(** The constant [L] of [examples/2D_detonation/case.py], and the extent of
    the 2-D domain in x that the case file derives from it
    (['x_domain%beg': 0], ['x_domain%end': L*2]). *)
Definition L : float := 0.12.
Definition x_domain_beg : float := 0.
Definition x_domain_end : float := (L * 2)%float.

(** ** A dataset held in memory, for the worked examples *)

(** Modelled from the spec: the class [mfc.viz.Case], whose source is not
    among the files of the script.  The reference dataset is a stored set of
    series, one per field kind, each giving the array of samples at every
    snapshot; [load_variable] makes one of them accessible under a name and
    [get_data] returns what has been made accessible.  The samples are
    floats with integral values of magnitude below [10^16], kept as
    integers. *)
Record MemCase := mkMemCase {
  stored : gmap string (gmap Z (list Z));     (* kind to step to samples, as on disk *)
  in_memory : gmap Z (gmap string (list Z));  (* what [get_data()] returns *)
}.

(** Loading copies the stored series of [kind] into every snapshot under
    [name]; a kind that is not stored raises. *)
Definition mem_load (name kind : string) (c : MemCase) : Exception + MemCase :=
  match stored c !! kind with
  | None => inl (CaseError kind)
  | Some series =>
      inr (mkMemCase (stored c)
             (merge (λ snapshot a,
                       match a with
                       | Some a => Some (<[name := a]> (default ∅ snapshot))
                       | None => snapshot
                       end) (in_memory c) series))
  end.

#[global] Instance mem_case_api : CaseAPI Z MemCase :=
  {| load_variable := mem_load; get_data := in_memory |}.

(** Python's [str] on a float with an integral value of magnitude below
    [10^16], which it prints in positional notation: [1.0], [-2.0].  (From
    [10^16] on Python prints an exponent, [1e+16], and from [2^53] on not
    every integer is a float.)  The samples of the datasets below are all
    within that range; nothing is proved about [str_Z] outside the worked
    examples, every theorem being stated for an arbitrary [str]. *)
Definition str_Z (z : Z) : string := pretty z +:+ ".0".

(** A stored dataset with, for each source id [k] in [1..15] that [f]
    defines, the arrays of field [k] at snapshots 0 and 14694. *)
Definition dataset (f : Z → option (list Z * list Z)) : MemCase :=
  mkMemCase
    (list_to_map
       (omap (λ k, (λ '(a0, a), ("prim." +:+ pretty k, {[0 := a0; 14694 := a]})) <$> f k)
             (seqZ 1 15)))
    ∅.

(** The end-to-end scenario: [nx = 3], source id 1 is [1.0, 2.0, 3.0], every
    other source id is [4.0, 5.0, 6.0]. *)
Definition ds_scenario : MemCase :=
  dataset (λ k, if bool_decide (k = 1) then Some ([0; 0; 0], [1; 2; 3])
                else Some ([0; 0; 0], [4; 5; 6])).

(** The boundary scenario: [nx = 1], every field is [5.0]. *)
Definition ds_single : MemCase :=
  dataset (λ k, Some ([0], [5])).

(** Field 1 has one sample at snapshot 0 and two at snapshot 14694. *)
Definition ds_uneven : MemCase :=
  dataset (λ k, if bool_decide (k = 1) then Some ([0], [7; 8]) else Some ([0], [5])).

(** Field 1 has one sample, every other field two. *)
Definition ds_ragged : MemCase :=
  dataset (λ k, if bool_decide (k = 1) then Some ([0], [5]) else Some ([0; 0], [5; 6])).

(** Every field is stored with no sample at all. *)
Definition ds_empty : MemCase :=
  dataset (λ k, Some ([], [])).

(** Field 2 is not stored. *)
Definition ds_missing : MemCase :=
  dataset (λ k, if bool_decide (k = 2) then None else Some ([0], [5])).

(** The command line without [--scale]. *)
Definition default_args : Namespace := parse_args None.

(** Running a statement: the outcome and the files it leaves. *)
Definition run {Case A} (m : M Case A) (c : Case) (fs : gmap string string) :
    Outcome A * State Case :=
  m (initial c fs).

(** ** The declarations file, line by line *)

(** The first line of a declaration. *)
Definition decl_head (d : Decl) : string :=
  "real(kind(0d0)) :: var" +:+ pretty (d_id d) +:+ "(0:" +:+ pretty (d_nx d - 1) +:+
  ") = [ &".

(** The literal lines: a comma and the continuation marker after each
    literal but the last, the marker alone after the last. *)
Fixpoint literal_line_list (lits : list string) : list string :=
  match lits with
  | [] => []
  | [x] => [x +:+ " &"]
  | x :: rest => (x +:+ ", &") :: literal_line_list rest
  end.

Definition decl_lines (d : Decl) : list string :=
  decl_head d :: literal_line_list (d_literals d) ++ ["]"].

(** Two directory trees: one where every path can be opened for writing,
    and one where [examples/2D_detonation] does not exist. *)
Definition writable_tree : string → option OpenError := λ _, None.
Definition no_directory : string → option OpenError := λ _, Some FileNotFoundError.

(** A dataset that stops before step 14694: every field is stored with the
    one sample [5.0] at snapshot 0 only. *)
Definition ds_short : MemCase :=
  mkMemCase
    (list_to_map ((λ k, ("prim." +:+ pretty k, {[0 := [5]]})) <$> seqZ 1 15))
    ∅.

(** ** The case file [examples/2D_detonation/case.py]

    The script computes the grid and the time stepping from [--scale],
    builds the dictionary [case], and adds the species entries when
    chemistry is on.  Cantera is an external library: the two gas states it
    returns are inputs here.  The final [print(json.dumps(case))] is not
    modelled (it prints floats). *)

Module CasePy.

Set Warnings "-register-all".

(** A value as [json.loads] returns it ([--mfc] has [type=json.loads]). *)
Inductive Json :=
| JNull
| JBool (b : bool)
| JInt (z : Z)
| JFloat (x : float)
| JStr (s : string)
| JArr (items : list Json)
| JObj (members : list (string * Json)).

(** Python's truth value of such a value. *)
Definition truthy (j : Json) : bool :=
  match j with
  | JNull => false
  | JBool b => b
  | JInt z => bool_decide (z ≠ 0)
  | JFloat x => negb (PrimFloat.eqb x 0)
  | JStr s => bool_decide (s ≠ "")
  | JArr items => bool_decide (items ≠ [])
  | JObj members => bool_decide (members ≠ [])
  end.

(** [d.get(key, default)] on the dict of an object; of several members with
    one key, [json.loads] keeps the last. *)
Definition dict_get (members : list (string * Json)) (key : string) (default : Json) : Json :=
  foldl (λ found kv, if bool_decide (kv.1 = key) then kv.2 else found) default members.

(** The parsed command line: [--mfc] (default [{}]), [--no-chem] (which
    clears [chemistry], default [True]) and [--scale] (default 1).  The
    default of [--scale] stays the int 1, for which [int(2*400 * 1)] and
    [int(200 * 1)] are the numbers they are for the float 1.0; the field is
    a float. *)
Record Namespace := {
  mfc : Json;
  chemistry : bool;
  scale : float;
}.

(** A gas state as Cantera exposes it once [DPX] has been set. *)
Record Solution := {
  Y : list float;
  P : float;
  density : float;
}.

Inductive PyException :=
| ZeroDivisionError
| ValueError
| OverflowError
| AttributeError.

#[global] Instance exc_ret : MRet (sum PyException) := λ A a, inr a.
#[global] Instance exc_bind : MBind (sum PyException) :=
  λ A B k m, match m with inl e => inl e | inr a => k a end.

(** [int(x)] on a float: truncation toward zero; NaN and the infinities
    raise. *)
Definition py_int (x : float) : PyException + Z :=
  match Prim2SF x with
  | S754_nan => inl ValueError
  | S754_infinity _ => inl OverflowError
  | S754_zero _ => inr 0
  | S754_finite s m e =>
      let z := if bool_decide (0 ≤ e) then Zpos m * 2 ^ e else Zpos m `quot` 2 ^ (- e) in
      inr (if s then - z else z)
  end.

(** The conversion of an int operand in float arithmetic: the nearest
    double, and [OverflowError] when the int is too large.  [literal] is the
    same conversion for the small literals of the script, which cannot
    overflow. *)
Definition literal (z : Z) : float := SF2Prim (binary_normalize prec emax z 0 false).

Definition int_to_float (z : Z) : PyException + float :=
  match binary_normalize prec emax z 0 false with
  | S754_infinity _ => inl OverflowError
  | _ => inr (literal z)
  end.

(** [x / n] with a float [x] and an int [n]. *)
Definition float_div_int (x : float) (n : Z) : PyException + float :=
  y ← int_to_float n;
  if PrimFloat.eqb y 0 then inl ZeroDivisionError else inr (PrimFloat.div x y).

(** [x / y] on floats. *)
Definition float_div (x y : float) : PyException + float :=
  if PrimFloat.eqb y 0 then inl ZeroDivisionError else inr (PrimFloat.div x y).

(** [min(a, b)]: the first argument unless the second is smaller. *)
Definition py_min (a b : float) : float := if PrimFloat.ltb b a then b else a.

(** The values the dictionary holds. *)
Inductive Value :=
| DStr (s : string)
| DInt (z : Z)
| DFloat (x : float).

(** A dict display: later entries replace earlier ones with the same key. *)
Definition dict_literal (entries : list (string * Value)) : gmap string Value :=
  foldl (λ d kv, <[kv.1 := kv.2]> d) ∅ entries.

Definition ctfile : string := "h2o2.yaml".
Definition u_l : Z := 0.
Definition u_r : float := (-487.34)%float.
Definition Tend : float := 230e-6%float.
Definition SAVE_COUNT : Z := 100.

(** The entries of the dict display, in source order. *)
Definition entries (args : Namespace) (sol_R : Solution) (Nx Ny NT NS : Z) (dt : float)
    (parallel_io : string) : list (string * Value) :=
  [ ("run_time_info", DStr "T");
    ("x_domain%beg", DInt 0);
    ("x_domain%end", DFloat (PrimFloat.mul L (literal 2)));
    ("y_domain%beg", DInt 0);
    ("y_domain%end", DFloat (PrimFloat.div L (literal 2)));
    ("m", DInt Nx);
    ("n", DInt Ny);
    ("p", DInt 0);
    ("dt", DFloat dt);
    ("t_step_start", DInt 0);
    ("t_step_stop", DInt NT);
    ("t_step_save", DInt NS);
    ("t_step_print", DInt 10);
    ("parallel_io", DStr parallel_io);
    ("model_eqns", DInt 2);
    ("num_fluids", DInt 1);
    ("num_patches", DInt 2);
    ("mpp_lim", DStr "F");
    ("mixture_err", DStr "F");
    ("time_stepper", DInt 3);
    ("weno_order", DInt 5);
    ("weno_eps", DFloat 1e-16);
    ("weno_avg", DStr "F");
    ("mapped_weno", DStr "T");
    ("mp_weno", DStr "T");
    ("riemann_solver", DInt 2);
    ("wave_speeds", DInt 1);
    ("avg_state", DInt 2);
    ("bc_x%beg", DInt (-3));
    ("bc_x%end", DInt (-3));
    ("bc_y%beg", DInt (-1));
    ("bc_y%end", DInt (-1));
    ("chemistry", DStr (if negb (chemistry args) then "F" else "T"));
    ("chem_params%diffusion", DStr "F");
    ("chem_params%reactions", DStr "T");
    ("cantera_file", DStr ctfile);
    ("format", DInt 1);
    ("precision", DInt 2);
    ("prim_vars_wrt", DStr "T");
    ("chem_wrt_T", DStr "T");
    ("rho_wrt", DStr "T");
    ("patch_icpp(1)%geometry", DInt 3);
    ("patch_icpp(1)%x_centroid", DFloat L);
    ("patch_icpp(1)%y_centroid", DFloat (PrimFloat.div L (literal 4)));
    ("patch_icpp(1)%length_x", DFloat (PrimFloat.mul (literal 2) L));
    ("patch_icpp(1)%length_y", DFloat (PrimFloat.div L (literal 2)));
    ("patch_icpp(1)%vel(1)", DFloat 0);
    ("patch_icpp(1)%vel(2)", DFloat 0);
    ("patch_icpp(1)%pres", DFloat (P sol_R));
    ("patch_icpp(1)%alpha(1)", DInt 1);
    ("patch_icpp(1)%alpha_rho(1)", DFloat (density sol_R));
    ("patch_icpp(2)%geometry", DInt 7);
    ("patch_icpp(2)%x_centroid", DFloat (PrimFloat.div L (literal 2)));
    ("patch_icpp(2)%y_centroid", DFloat (PrimFloat.div L (literal 4)));
    ("patch_icpp(2)%length_x", DFloat L);
    ("patch_icpp(2)%length_y", DFloat (PrimFloat.div L (literal 2)));
    ("patch_icpp(2)%hcid", DInt 666);
    ("patch_icpp(2)%vel(1)", DInt 0);
    ("patch_icpp(2)%vel(2)", DInt 0);
    ("patch_icpp(2)%pres", DFloat (P sol_R));
    ("patch_icpp(2)%alpha(1)", DInt 1);
    ("patch_icpp(2)%alpha_rho(1)", DFloat (density sol_R));
    ("patch_icpp(2)%alter_patch(1)", DStr "T");
    ("vel_wrt(1)", DStr "T");
    ("vel_wrt(2)", DStr "T");
    ("pres_wrt", DStr "T");
    ("fluid_pp(1)%gamma", DFloat (PrimFloat.div 1 (PrimFloat.sub 4.4 1)));
    ("fluid_pp(1)%pi_inf", DInt 0) ].

(** The key [f'{stem}{i + 1})'] of species [i + 1] in one of the three
    families the chemistry loop assigns. *)
Definition species_key (stem : string) (i : Z) : string :=
  stem +:+ pretty (i + 1) +:+ ")".

(** One turn of the loop [for i in range(len(sol_L.Y))], with [y] the
    element [sol_L.Y[i]]. *)
Definition add_species (case : gmap string Value) (iy : Z * float) : gmap string Value :=
  let '(i, y) := iy in
  <[species_key "patch_icpp(2)%Y(" i := DFloat y]>
    (<[species_key "patch_icpp(1)%Y(" i := DFloat y]>
       (<[species_key "chem_wrt_Y(" i := DStr "T"]> case)).

(** ['T' if args.mfc.get("mpi", True) else 'F']; only a dict has [get]. *)
Definition parallel_io (args : Namespace) : PyException + string :=
  match mfc args with
  | JObj members => inr (if truthy (dict_get members "mpi" (JBool true)) then "T" else "F")
  | _ => inl AttributeError
  end.

(** The script, up to the value of [case] at its end. *)
Definition script (args : Namespace) (sol_L sol_R : Solution) :
    PyException + gmap string Value :=
  Nx ← py_int (PrimFloat.mul (literal (2 * 400)) (scale args));
  Ny ← py_int (PrimFloat.mul (literal 200) (scale args));
  dx ← float_div_int (PrimFloat.mul (literal 2) L) Nx;
  dy ← float_div_int (PrimFloat.div L (literal 2)) Ny;
  q ← float_div (py_min dx dy) (PrimFloat.abs u_r);
  let dt := PrimFloat.mul (PrimFloat.mul (PrimFloat.mul q 0.05) 0.1) 0.2 in
  NT ← (r ← float_div Tend dt; py_int r);
  let NS := NT `div` SAVE_COUNT in
  pio ← parallel_io args;
  let case := dict_literal (entries args sol_R Nx Ny NT NS dt pio) in
  mret (if chemistry args then foldl add_species case (enumerate (Y sol_L)) else case).

(** [s.startswith(p)] *)
Fixpoint starts_with (p s : string) : bool :=
  match p with
  | "" => true
  | String a p' =>
      match s with
      | "" => false
      | String b s' => Ascii.eqb a b && starts_with p' s'
      end
  end.

(** The stems of the three families of keys the chemistry loop assigns. *)
Definition species_stems : list string :=
  ["chem_wrt_Y("; "patch_icpp(1)%Y("; "patch_icpp(2)%Y("].

Definition is_species_key (k : string) : bool :=
  existsb (λ stem, starts_with stem k) species_stems.

(** The value the loop gives to a key of a species whose mass fraction is
    [y]: the flag ['T'] in the family [chem_wrt_Y], [y] in the other two. *)
Definition species_value (stem : string) (y : float) : Value :=
  if bool_decide (stem = "chem_wrt_Y(") then DStr "T" else DFloat y.

(** For the examples: the default command line, one with another scale,
    and gas states with two species. *)
Definition default_args : Namespace :=
  {| mfc := JObj []; chemistry := true; scale := 1 |}.
Definition scaled_args (x : float) : Namespace :=
  {| mfc := JObj []; chemistry := true; scale := x |}.
Definition gas_L : Solution := {| Y := [0.25; 0.75]%float; P := 7173; density := 0.072 |}.
Definition gas_R : Solution := {| Y := [0.5; 0.5]%float; P := 35594; density := 0.18075 |}.

(** The command line [--mfc '{"mpi": false, "gpu": true}']. *)
Definition serial_args : Namespace :=
  {| mfc := JObj [("mpi", JBool false); ("gpu", JBool true)];
     chemistry := true; scale := 1 |}.

(** The command line [args] with [--no-chem] added. *)
Definition without_chemistry (args : Namespace) : Namespace :=
  {| mfc := mfc args; chemistry := false; scale := scale args |}.

(** The dict of a run that finished (the empty dict for one that raised),
    and the one of the default command line on the example gas states. *)
Definition finished (r : PyException + gmap string Value) : gmap string Value :=
  match r with
  | inr case => case
  | inl _ => ∅
  end.
Definition finishes (r : PyException + gmap string Value) : bool :=
  match r with
  | inr _ => true
  | inl _ => false
  end.
Definition default_case : gmap string Value := finished (script default_args gas_L gas_R).

End CasePy.

(** * Proofs *)

(** ** Strings *)

Lemma append_cons (ch : ascii) (a b : string) : String ch a +:+ b = String ch (a +:+ b).
Proof. reflexivity. Qed.

Lemma append_assoc (a b c : string) : (a +:+ b) +:+ c = a +:+ b +:+ c.
Proof. induction a as [|ch a IH]; [done | by rewrite !append_cons, IH]. Qed.

Lemma append_nil_r (a : string) : a +:+ "" = a.
Proof. induction a as [|ch a IH]; [done | by rewrite append_cons, IH]. Qed.

Lemma concat_strings_app (l k : list string) :
  concat_strings (l ++ k) = concat_strings l +:+ concat_strings k.
Proof.
  induction l as [|x l IH]; [done|].
  change (x +:+ concat_strings (l ++ k) = (x +:+ concat_strings l) +:+ concat_strings k).
  by rewrite IH, append_assoc.
Qed.


(** ** Running the primitive statements *)

Section Primitives.
Context {Sample Case : Type} `{!CaseAPI Sample Case}.
Implicit Types (c : Case) (n : option Z) (fs : gmap string string) (cs : list Access).

Lemma bind_ok {A B} (m : M Case A) (k : A → M Case B) σ a σ' :
  m σ = (Ok a, σ') → (m ≫= k) σ = k a σ'.
Proof. intros Hm. unfold mbind, M_bind. by rewrite Hm. Qed.

Lemma bind_raise {A B} (m : M Case A) (k : A → M Case B) σ e σ' :
  m σ = (Raise e, σ') → (m ≫= k) σ = (Raise e, σ').
Proof. intros Hm. unfold mbind, M_bind. by rewrite Hm. Qed.

Lemma write_run f t s c n fs cs :
  write f s (mkState c n (<[f := t]> fs) cs)
  = (Ok (), mkState c n (<[f := t +:+ s]> fs) cs).
Proof.
  unfold write, mbind, M_bind, get_state, put_state; simpl.
  by rewrite lookup_insert_eq, insert_insert_eq.
Qed.

Lemma open_w_run path c n fs cs :
  open_w path (mkState c n fs cs) = (Ok path, mkState c n (<[path := ""]> fs) cs).
Proof. done. Qed.

Lemma set_nx_run k c n fs cs :
  set_nx k (mkState c n fs cs) = (Ok (), mkState c (Some k) fs cs).
Proof. done. Qed.

Lemma get_nx_run k c fs cs :
  get_nx (mkState c (Some k) fs cs) = (Ok k, mkState c (Some k) fs cs).
Proof. done. Qed.

Lemma case_load_variable_run name kind c n fs cs :
  case_load_variable name kind (mkState c n fs cs)
  = match load_variable name kind c with
    | inl e => (Raise e, mkState c n fs (cs ++ [ALoad name kind]))
    | inr c' => (Ok (), mkState c' n fs (cs ++ [ALoad name kind]))
    end.
Proof.
  unfold case_load_variable, log, mbind, M_bind, get_state, put_state; simpl.
  by destruct (load_variable name kind c).
Qed.

Lemma case_data_run step name c n fs cs :
  case_data step name (mkState c n fs cs)
  = match lookup2 (get_data c) step name with
    | inl e => (Raise e, mkState c n fs (cs ++ [ARead step name]))
    | inr a => (Ok a, mkState c n fs (cs ++ [ARead step name]))
    end.
Proof.
  unfold case_data, log, subscript, lookup2, mbind, M_bind, get_state, put_state; simpl.
  destruct (get_data c !! step) as [snapshot|]; simpl; [|done].
  by destruct (snapshot !! name).
Qed.

End Primitives.

(** ** Running the loop bodies *)

Section Loops.
Context {Sample Case : Type} `{!CaseAPI Sample Case}.
Variable str : Sample → string.
Implicit Types (c : Case) (n : option Z) (fs : gmap string string) (cs : list Access).

Lemma write_elements_run f all els i t c n fs cs :
  len all = i + len els →
  for_each (enumerate_from i els) (write_element f all) (mkState c n (<[f := t]> fs) cs)
  = (Ok (), mkState c n (<[f := t +:+ literal_lines (format <$> els)]> fs) cs).
Proof.
  revert i t. induction els as [|x els IH]; intros i t Hlen.
  - simpl. by rewrite append_nil_r.
  - cbn [enumerate_from for_each].
    destruct els as [|y els].
    + erewrite bind_ok; last first.
      { unfold write_element. rewrite bool_decide_true; [apply write_run|].
        unfold len in *; simpl in *; lia. }
      done.
    + erewrite bind_ok; last first.
      { unfold write_element. rewrite bool_decide_false; [apply write_run|].
        unfold len in *; simpl in *; lia. }
      rewrite IH; last (unfold len in *; simpl in *; lia).
      cbn [fmap list_fmap literal_lines]. by rewrite !append_assoc.
Qed.

Lemma format_PyStr (d : list Sample) : format <$> (PyStr ∘ str <$> d) = str <$> d.
Proof. by rewrite <-list_fmap_compose. Qed.

Lemma format_zeros (k : Z) :
  format <$> list_mul PyFloatZero k = replicate (Z.to_nat k) "0.0".
Proof. unfold list_mul. by rewrite fmap_replicate. Qed.

Lemma len_list_mul {A} (x : A) (k : Z) : 0 ≤ k → len (list_mul x k) = k.
Proof. intros. unfold len, list_mul. rewrite length_replicate. lia. Qed.

Lemma declare_ok f v c c' d0 d n t fs cs :
  load_for c v = inr c' →
  lookup2 (get_data c') 0 (pretty (var_init v)) = inr d0 →
  (v ≠ 3 → lookup2 (get_data c') 14694 (pretty (var_init v)) = inr d) →
  declare str f v (mkState c n (<[f := t]> fs) cs)
  = (Ok (), mkState c' (Some (len d0))
       (<[f := t +:+ render_decl (mkDecl v (len d0)
                 (if bool_decide (v = 3) then replicate (Z.to_nat (len d0)) "0.0"
                  else str <$> d))]> fs)
       (cs ++ accesses v)).
Proof.
  intros Hload H0 H1. unfold declare, load_for in *. cbv zeta.
  erewrite bind_ok; last by rewrite case_load_variable_run, Hload.
  erewrite bind_ok; last by rewrite case_data_run, H0.
  erewrite bind_ok; last by apply set_nx_run.
  unfold accesses, render_decl. cbn [d_id d_nx d_literals].
  destruct (decide (v = 3)) as [->|Hv].
  - rewrite (bool_decide_false (3 ≠ 3)) by naive_solver.
    rewrite (bool_decide_true (3 = 3)) by done.
    erewrite bind_ok; last by (erewrite bind_ok; [|apply get_nx_run]).
    erewrite bind_ok; last by apply get_nx_run.
    erewrite bind_ok; last by apply write_run.
    erewrite bind_ok; last first.
    { apply write_elements_run. rewrite len_list_mul; unfold len; lia. }
    rewrite write_run, format_zeros, !append_assoc, app_nil_r, <-!(assoc_L (++)).
    done.
  - rewrite (bool_decide_true (v ≠ 3)), (bool_decide_false (v = 3)) by done.
    erewrite bind_ok; last first.
    { erewrite bind_ok; [done|]. by rewrite case_data_run, H1. }
    erewrite bind_ok; last by apply get_nx_run.
    erewrite bind_ok; last by apply write_run.
    erewrite bind_ok; last first.
    { apply write_elements_run. unfold len; lia. }
    rewrite write_run, format_PyStr, !append_assoc, <-!(assoc_L (++)).
    done.
Qed.

Lemma declare_fail f v c e n t fs cs :
  failure_in c v = Some e →
  ∃ σ', declare str f v (mkState c n (<[f := t]> fs) cs) = (Raise e, σ')
        ∧ st_files σ' = <[f := t]> fs.
Proof.
  unfold failure_in, declare, load_for. cbv zeta. intros Hfail.
  destruct (load_variable _ _ c) as [e'|c'] eqn:Hload.
  { simplify_eq. eexists. split.
    - erewrite bind_raise; [done|]. by rewrite case_load_variable_run, Hload.
    - done. }
  erewrite bind_ok; last by rewrite case_load_variable_run, Hload.
  destruct (lookup2 (get_data c') 0 _) as [e'|d0] eqn:H0.
  { simplify_eq. eexists. split.
    - erewrite bind_raise; [done|]. by rewrite case_data_run, H0.
    - done. }
  erewrite bind_ok; last by rewrite case_data_run, H0.
  erewrite bind_ok; last by apply set_nx_run.
  case_bool_decide; [|done].
  destruct (lookup2 (get_data c') 14694 _) as [e'|d] eqn:H1; [|done].
  simplify_eq. eexists. split.
  - erewrite bind_raise; [done|].
    erewrite bind_raise; [done|]. by rewrite case_data_run, H1.
  - done.
Qed.

End Loops.

(** ** Running the two passes *)

Section Passes.
Context {Sample Case : Type} `{!CaseAPI Sample Case}.
Variable str : Sample → string.
Implicit Types (c : Case) (n : option Z) (fs : gmap string string) (cs : list Access).

Lemma seqZ_snoc (a k : Z) : 0 ≤ k → seqZ a (k + 1) = seqZ a k ++ [a + k].
Proof.
  intros. rewrite seqZ_app by lia. f_equal.
Qed.

Lemma case_at_0 c : case_at c 0 = c.
Proof. done. Qed.

Lemma case_at_succ c v :
  1 ≤ v →
  case_at c v = match load_for (case_at c (v - 1)) v with
                | inr c' => c'
                | inl _ => case_at c (v - 1)
                end.
Proof.
  intros. unfold case_at at 1.
  replace v with (v - 1 + 1) at 1 by lia.
  rewrite seqZ_snoc, foldl_app by lia. simpl.
  replace (1 + (v - 1)) with v by lia. done.
Qed.

Lemma failure_in_None c v :
  failure_in c v = None →
  ∃ c' d0 d, load_for c v = inr c'
    ∧ lookup2 (get_data c') 0 (pretty (var_init v)) = inr d0
    ∧ (v ≠ 3 → lookup2 (get_data c') 14694 (pretty (var_init v)) = inr d).
Proof.
  unfold failure_in. intros Hf.
  destruct (load_for c v) as [|c'] eqn:Hload; [done|].
  destruct (lookup2 (get_data c') 0 _) as [|d0] eqn:H0; [done|].
  case_bool_decide.
  - destruct (lookup2 (get_data c') 14694 _) as [|d] eqn:H1; [done|].
    by exists c', d0, d.
  - by exists c', d0, [].
Qed.

(** What an iteration that does not raise leaves behind, in the terms of the
    run that started from [c0]. *)
Lemma declare_at f c0 v n t fs cs :
  1 ≤ v →
  failure_at c0 v = None →
  declare str f v (mkState (case_at c0 (v - 1)) n (<[f := t]> fs) cs)
  = (Ok (), mkState (case_at c0 v) (Some (nx_at c0 v))
       (<[f := t +:+ render_decl (decl_of str c0 v)]> fs) (cs ++ accesses v)).
Proof.
  intros Hv (c' & d0 & d & Hload & H0 & H1)%failure_in_None.
  rewrite (declare_ok str f v _ c' d0 d) by done.
  assert (case_at c0 v = c') as Hc by (by rewrite case_at_succ, Hload).
  assert (field c0 v 0 = d0) as Hd0 by (unfold field; by rewrite Hc, H0).
  unfold decl_of, nx_at. rewrite Hc, Hd0. do 4 f_equal.
  case_bool_decide; [done|].
  unfold field. by rewrite Hc, H1.
Qed.

Lemma first_failure_None c0 vs :
  first_failure c0 vs = None ↔ ∀ v, v ∈ vs → failure_at c0 v = None.
Proof.
  induction vs as [|u vs IH]; simpl.
  - split; [|done]. intros _ v Hv. by apply elem_of_nil in Hv.
  - destruct (failure_at c0 u) eqn:Hu.
    + split; [done|]. intros Hall. specialize (Hall u). rewrite Hu in Hall.
      discriminate Hall. left.
    + rewrite IH. split.
      * intros Hall v [->|Hv]%elem_of_cons; auto.
      * intros Hall v Hv. apply Hall. by right.
Qed.

Lemma first_failure_Some c0 a (k : nat) v e :
  first_failure c0 (seqZ a (Z.of_nat k)) = Some (v, e) →
  a ≤ v < a + Z.of_nat k ∧ failure_at c0 v = Some e ∧ ∀ u, a ≤ u < v → failure_at c0 u = None.
Proof.
  revert a. induction k as [|k IH]; intros a; [done|].
  rewrite seqZ_cons by lia. simpl.
  replace (Z.pred (Z.of_nat (S k))) with (Z.of_nat k) by lia.
  destruct (failure_at c0 a) eqn:Ha.
  - intros [= <- <-]. split_and!; [lia..|done|lia].
  - intros (? & ? & Hbefore)%IH. split_and!; [lia..|done|].
    intros u Hu. destruct (decide (u = a)) as [->|]; [done|]. apply Hbefore. lia.
Qed.

Lemma declare_loop_ok f c0 (k : nat) a n t fs cs :
  1 ≤ a →
  first_failure c0 (seqZ a (Z.of_nat k)) = None →
  for_each (seqZ a (Z.of_nat k)) (declare str f) (mkState (case_at c0 (a - 1)) n (<[f := t]> fs) cs)
  = (Ok (), mkState (case_at c0 (a + Z.of_nat k - 1))
       (if decide (k = 0%nat) then n else Some (nx_at c0 (a + Z.of_nat k - 1)))
       (<[f := t +:+ concat_strings (render_decl <$> (decl_of str c0 <$> seqZ a (Z.of_nat k)))]> fs)
       (cs ++ concat (accesses <$> seqZ a (Z.of_nat k)))).
Proof.
  revert a n t cs. induction k as [|k IH]; intros a n t cs Ha Hok.
  - simpl. rewrite append_nil_r, app_nil_r. do 3 f_equal. lia.
  - rewrite seqZ_cons in * by lia.
    replace (Z.pred (Z.of_nat (S k))) with (Z.of_nat k) in * by lia.
    simpl in Hok. destruct (failure_at c0 a) eqn:Hfa; [done|].
    cbn [for_each].
    erewrite bind_ok; last by apply declare_at.
    replace (case_at c0 a) with (case_at c0 (Z.succ a - 1)) by (f_equal; lia).
    rewrite IH by (done || lia).
    cbn [fmap list_fmap concat concat_strings foldr].
    rewrite append_assoc, <-(assoc_L (++)).
    replace (Z.succ a + Z.of_nat k - 1) with (a + Z.of_nat (S k) - 1) by lia.
    destruct k; [|done].
    by replace (a + Z.of_nat 1 - 1) with a by lia.
Qed.

Lemma declare_loop_fail f c0 (k : nat) a n t fs cs v e :
  1 ≤ a →
  first_failure c0 (seqZ a (Z.of_nat k)) = Some (v, e) →
  ∃ σ', for_each (seqZ a (Z.of_nat k)) (declare str f) (mkState (case_at c0 (a - 1)) n (<[f := t]> fs) cs)
        = (Raise e, σ')
      ∧ st_files σ'
        = <[f := t +:+ concat_strings (render_decl <$> (decl_of str c0 <$> seqZ a (v - a)))]> fs.
Proof.
  revert a n t cs. induction k as [|k IH]; intros a n t cs Ha Hfail; [done|].
  rewrite seqZ_cons in * by lia.
  replace (Z.pred (Z.of_nat (S k))) with (Z.of_nat k) in * by lia.
  simpl in Hfail. cbn [for_each].
  destruct (failure_at c0 a) as [e'|] eqn:Hfa.
  - simplify_eq. destruct (declare_fail str f v _ e n t fs cs Hfa) as (σ' & Hrun & Hfs).
    exists σ'. split; [by erewrite bind_raise|].
    rewrite Hfs, Z.sub_diag. simpl. by rewrite append_nil_r.
  - pose proof (first_failure_Some _ _ _ _ _ Hfail) as (Hrange & _ & _).
    erewrite bind_ok; last by apply declare_at.
    replace (case_at c0 a) with (case_at c0 (Z.succ a - 1)) by (f_equal; lia).
    destruct (IH (Z.succ a) (Some (nx_at c0 a)) (t +:+ render_decl (decl_of str c0 a))
                (cs ++ accesses a)) as (σ' & Hrun & Hfs); [lia|done|].
    exists σ'. split; [done|]. rewrite Hfs.
    rewrite (seqZ_cons a (v - a)) by lia.
    replace (Z.pred (v - a)) with (v - Z.succ a) by lia.
    cbn [fmap list_fmap concat_strings foldr]. by rewrite append_assoc.
Qed.

Lemma assign_text_eq (nx v : Z) :
  "    q_prim_vf(" +:+ pretty v +:+ ")%sf(i, j, 0) = var" +:+ pretty v +:+
    "(min(i_offset+i, " +:+ pretty (nx - 1) +:+ "))" +:+ nl
  = assign_text nx v +:+ nl.
Proof.
  unfold assign_text. cbn [index_exp show]. by rewrite !append_assoc.
Qed.

Lemma offset_text_eq (nx : Z) :
  "    i_offset = int(x_cc(0)/0.12d0*" +:+ pretty (nx - 1) +:+ ")" +:+ nl
  = offset_text nx +:+ nl.
Proof.
  unfold offset_text. cbn [offset_exp x_scale show]. by rewrite !append_assoc.
Qed.

Lemma assign_loop_run f vs c k t fs cs :
  for_each vs (assign f) (mkState c (Some k) (<[f := t]> fs) cs)
  = (Ok (), mkState c (Some k) (<[f := t +:+ unlines (assign_text k <$> vs)]> fs) cs).
Proof.
  revert t. induction vs as [|v vs IH]; intros t.
  - simpl. by rewrite append_nil_r.
  - cbn [for_each]. erewrite bind_ok; last first.
    { unfold assign. erewrite bind_ok; [|apply get_nx_run].
      rewrite assign_text_eq. apply write_run. }
    rewrite IH. unfold unlines. cbn [fmap list_fmap concat_strings foldr].
    by rewrite append_assoc.
Qed.

End Passes.

(** ** The two artifacts in the file system *)

Lemma paths_differ : ic_def_path ≠ ic_decl_path.
Proof. done. Qed.

Lemma lookup_decl_artifact (a b : string) (fs : gmap string string) :
  <[ic_def_path := b]> (<[ic_decl_path := a]> fs) !! ic_decl_path = Some a.
Proof. by rewrite lookup_insert_ne, lookup_insert_eq by apply paths_differ. Qed.

Lemma lookup_def_artifact (a b : string) (fs : gmap string string) :
  <[ic_def_path := b]> (<[ic_decl_path := a]> fs) !! ic_def_path = Some b.
Proof. by rewrite lookup_insert_eq. Qed.

Lemma artifacts_rewritten (a b : string) (fs : gmap string string) :
  <[ic_def_path := b]> (<[ic_decl_path := a]>
     (<[ic_def_path := b]> (<[ic_decl_path := a]> fs)))
  = <[ic_def_path := b]> (<[ic_decl_path := a]> fs).
Proof.
  rewrite (insert_insert_ne _ ic_decl_path ic_def_path) by (symmetry; apply paths_differ).
  by rewrite !insert_insert_eq.
Qed.

(** ** The whole script *)

Section Main.
Context {Sample Case : Type} `{!CaseAPI Sample Case}.
Variable str : Sample → string.
Implicit Types (c : Case) (fs : gmap string string) (args : Namespace).

Lemma decl_pass_ok c fs :
  first_failure c (seqZ 1 16) = None →
  decl_pass str (initial c fs)
  = (Ok (), mkState (case_at c 16) (Some (nx_at c 16))
       (<[ic_decl_path := render_decls (decl_of str c <$> seqZ 1 16)]> fs)
       (concat (accesses <$> seqZ 1 16))).
Proof.
  intros Hok. unfold decl_pass, with_open, decl_body, initial.
  erewrite bind_ok; last by apply open_w_run.
  erewrite bind_ok; last by apply write_run.
  change (tqdm _ _) with (seqZ 1 (Z.of_nat 16)).
  change (case_at c 16) with (case_at c (1 + Z.of_nat 16 - 1)).
  change c with (case_at c (1 - 1)) at 1.
  by rewrite declare_loop_ok.
Qed.

Lemma decl_pass_fail c fs v e :
  first_failure c (seqZ 1 16) = Some (v, e) →
  ∃ σ', decl_pass str (initial c fs) = (Raise e, σ')
      ∧ st_files σ' = <[ic_decl_path := render_decls (decl_of str c <$> seqZ 1 (v - 1))]> fs.
Proof.
  intros Hfail. unfold decl_pass, with_open, decl_body, initial.
  erewrite bind_ok; last by apply open_w_run.
  erewrite bind_ok; last by apply write_run.
  change (tqdm _ _) with (seqZ 1 (Z.of_nat 16)).
  change c with (case_at c (1 - 1)) at 1.
  edestruct (declare_loop_fail str ic_decl_path c 16 1) as (σ' & -> & Hfs); [done..|].
  exists σ'. split; [done|]. by rewrite Hfs.
Qed.

Lemma def_pass_run c k fs cs :
  def_pass (mkState c (Some k) fs cs)
  = (Ok (), mkState c (Some k) (<[ic_def_path := render_branch k (seqZ 1 15)]> fs) cs).
Proof.
  unfold def_pass, with_open, def_body.
  erewrite bind_ok; last by apply open_w_run.
  erewrite bind_ok; last by apply write_run.
  erewrite bind_ok; last by apply get_nx_run.
  erewrite bind_ok; last by apply write_run.
  change (tqdm _ _) with (seqZ 1 15).
  rewrite offset_text_eq, assign_loop_run.
  unfold render_branch, branch_lines, unlines.
  cbn [fmap list_fmap concat_strings foldr]. by rewrite !append_assoc.
Qed.

(** With a dataset that supplies every field, the script finishes and
    leaves exactly the two rendered artifacts. *)
Lemma main_ok args c fs :
  first_failure c (seqZ 1 16) = None →
  run (main str args) c fs
  = (Ok (), mkState (case_at c 16) (Some (nx_at c 16))
       (<[ic_def_path := render_branch (nx_at c 16) (seqZ 1 15)]>
          (<[ic_decl_path := render_decls (decl_of str c <$> seqZ 1 16)]> fs))
       (concat (accesses <$> seqZ 1 16))).
Proof.
  intros Hok. unfold run, main.
  erewrite bind_ok; last by apply decl_pass_ok.
  apply def_pass_run.
Qed.

(** When iteration [v] is the first to raise, the script stops there: the
    declarations file holds what was written before, and nothing else of the
    file system has changed. *)
Lemma main_fail args c fs v e :
  first_failure c (seqZ 1 16) = Some (v, e) →
  ∃ σ', run (main str args) c fs = (Raise e, σ')
      ∧ st_files σ' = <[ic_decl_path := render_decls (decl_of str c <$> seqZ 1 (v - 1))]> fs.
Proof.
  intros Hfail. unfold run, main.
  destruct (decl_pass_fail c fs v e Hfail) as (σ' & Hrun & Hfs).
  exists σ'. split; [|done]. by erewrite bind_raise.
Qed.

(** The outcome and the artifacts do not depend on the command line or on
    what the file system held before. *)
Lemma artifacts_independent args args' c fs fs' :
  (run (main str args) c fs).1 = (run (main str args') c fs').1
  ∧ st_files (run (main str args) c fs).2 !! ic_decl_path
    = st_files (run (main str args') c fs').2 !! ic_decl_path
  ∧ ((run (main str args) c fs).1 = Ok () →
       st_files (run (main str args) c fs).2 !! ic_def_path
       = st_files (run (main str args') c fs').2 !! ic_def_path).
Proof.
  destruct (first_failure c (seqZ 1 16)) as [[v e]|] eqn:Hff.
  - destruct (main_fail args c fs v e Hff) as (σ1 & Hr1 & Hf1).
    destruct (main_fail args' c fs' v e Hff) as (σ2 & Hr2 & Hf2).
    rewrite Hr1, Hr2. cbn [fst snd].
    by rewrite Hf1, Hf2, !lookup_insert_eq.
  - rewrite (main_ok args), (main_ok args') by done. cbn [fst snd st_files].
    by rewrite !lookup_decl_artifact, !lookup_def_artifact.
Qed.

End Main.

(** ** The text of the branch file, line by line *)

Lemma all_chars_app P (a b : string) :
  all_chars P (a +:+ b) = all_chars P a && all_chars P b.
Proof.
  induction a as [|ch a IH]; [done|].
  rewrite append_cons. simpl. by rewrite IH, andb_assoc.
Qed.

Lemma all_chars_impl (P Q : ascii → bool) (s : string) :
  (∀ ch, P ch = true → Q ch = true) → all_chars P s = true → all_chars Q s = true.
Proof.
  intros HPQ. induction s as [|ch s IH]; simpl; [done|].
  intros [? ?]%andb_true_iff. apply andb_true_iff. auto.
Qed.

Lemma pretty_N_go_numeral (x : N) (s : string) :
  all_chars is_numeral s = true → all_chars is_numeral (pretty_N_go x s) = true.
Proof.
  revert s. induction (N.lt_wf_0 x) as [x _ IH]; intros s Hs.
  destruct (decide (x = 0)%N) as [->|Hx]; [by rewrite pretty_N_go_0|].
  rewrite pretty_N_go_step by lia. apply IH.
  - apply N.div_lt; lia.
  - simpl. rewrite Hs, andb_true_r. unfold pretty_N_char. by repeat case_match.
Qed.

Lemma pretty_Z_numeral (z : Z) : all_chars is_numeral (pretty z) = true.
Proof.
  assert (∀ p : positive, all_chars is_numeral (pretty p) = true) as Hpos.
  { intros p. unfold pretty, pretty_positive, pretty, pretty_N.
    case_decide; [done|]. by apply pretty_N_go_numeral. }
  unfold pretty, pretty_Z. destruct z as [|p|p]; [done|apply Hpos|].
  rewrite all_chars_app, Hpos. done.
Qed.

Lemma numeral_not_newline (s : string) :
  all_chars is_numeral s = true → all_chars not_newline s = true.
Proof.
  apply all_chars_impl. intros ch. unfold is_numeral, not_newline.
  intros Hch%bool_decide_eq_true. rewrite !elem_of_cons in Hch.
  set_unfold. by repeat (destruct Hch as [->|Hch]; [done|]).
Qed.

Lemma split_lines_line (l rest : string) :
  all_chars not_newline l = true →
  split_lines (l +:+ nl +:+ rest) = l :: split_lines rest.
Proof.
  induction l as [|ch l IH]; [done|].
  simpl. intros [Hch Hl]%andb_true_iff. rewrite IH by done.
  unfold not_newline in Hch. by destruct (Ascii.eqb ch "010").
Qed.

Lemma split_unlines (ls : list string) :
  Forall (λ l, all_chars not_newline l = true) ls →
  split_lines (unlines ls) = ls.
Proof.
  induction 1 as [|l ls Hl _ IH]; [done|].
  unfold unlines in *.
  change (split_lines ((l +:+ nl) +:+ concat_strings ((λ l, l +:+ nl) <$> ls)) = l :: ls).
  by rewrite append_assoc, split_lines_line, IH.
Qed.

(** Two texts that agree up to a character neither prefix contains have the
    same prefix. *)
Lemma append_stop_inj (P : ascii → bool) (x : ascii) (a b s s' : string) :
  all_chars P a = true → all_chars P b = true → P x = false →
  a +:+ String x s = b +:+ String x s' → a = b ∧ s = s'.
Proof.
  intros Ha Hb Hx. revert b Hb. induction a as [|ch a IH]; intros [|ch' b] Hb Heq.
  - change (String x s = String x s') in Heq. by simplify_eq.
  - change (String x s = String ch' (b +:+ String x s')) in Heq. simplify_eq/=.
    apply andb_true_iff in Hb as [? _]. congruence.
  - change (String ch (a +:+ String x s) = String x s') in Heq. simplify_eq/=.
    apply andb_true_iff in Ha as [? _]. congruence.
  - rewrite !append_cons in Heq. simplify_eq/=.
    apply andb_true_iff in Ha as [_ Ha]. apply andb_true_iff in Hb as [_ Hb].
    destruct (IH Ha b Hb) as [-> ->]; done.
Qed.

Lemma assign_text_inj (nx nx' v v' : Z) :
  assign_text nx v = assign_text nx' v' → v = v'.
Proof.
  unfold assign_text. intros Heq%(inj (String.append _)).
  apply (append_stop_inj is_numeral) in Heq as [Heq _];
    [|apply pretty_Z_numeral..|done].
  by apply (inj pretty).
Qed.

Lemma assign_text_no_newline (nx v : Z) : all_chars not_newline (assign_text nx v) = true.
Proof.
  unfold assign_text. cbn [index_exp show].
  rewrite !all_chars_app, !(numeral_not_newline _ (pretty_Z_numeral _)). done.
Qed.

Lemma offset_text_no_newline (nx : Z) : all_chars not_newline (offset_text nx) = true.
Proof.
  unfold offset_text. cbn [offset_exp x_scale show].
  rewrite !all_chars_app, !(numeral_not_newline _ (pretty_Z_numeral _)). done.
Qed.

Lemma split_render_branch (nx : Z) (vs : list Z) :
  split_lines (render_branch nx vs) = branch_lines nx vs.
Proof.
  apply split_unlines. unfold branch_lines.
  repeat apply Forall_cons_2; [done|apply offset_text_no_newline|].
  apply Forall_fmap, Forall_forall. intros v _. apply assign_text_no_newline.
Qed.

(** ** What the emitted expressions compute *)

Lemma index_exp_eval (env : gmap string fval) (nx off i : Z) :
  env !! "i_offset" = Some (VInt off) →
  env !! "i" = Some (VInt i) →
  eval env (index_exp nx) = Some (VInt ((off + i) `min` (nx - 1))).
Proof. intros Hoff Hi. unfold index_exp. simpl. by rewrite Hoff, Hi. Qed.

(** Truncation toward zero is the floor on non-negative values, and is the
    floor or one more on negative ones. *)
Lemma fortran_int_floor (x : float) (z : Z) :
  fortran_int x = Some z →
  ∃ z', floor x = Some z' ∧ (z' = z ∨ z' = z - 1) ∧ (negative x = false → z' = z).
Proof.
  unfold fortran_int, floor, negative.
  destruct (Prim2SF x) as [s| | |s m e]; try done.
  { intros [= <-]. exists 0. auto. }
  intros [= <-]. eexists. split; [done|].
  case_bool_decide.
  - destruct s; (split; [left|intros _]); lia.
  - assert (0 < 2 ^ (- e)) by (apply Z.pow_pos_nonneg; lia).
    destruct s.
    + split; [|done].
      rewrite Z.quot_div_nonneg by lia.
      change (Z.neg m) with (- Z.pos m).
      destruct (decide (Z.pos m `mod` 2 ^ (- e) = 0)) as [Hz|Hnz].
      * left. by rewrite Z_div_zero_opp_full.
      * right. by rewrite Z_div_nz_opp_full by (done || lia).
    + rewrite Z.quot_div_nonneg by lia. auto.
Qed.

(** ** The literal lines *)

Lemma unlines_cons (l : string) (ls : list string) :
  unlines (l :: ls) = l +:+ nl +:+ unlines ls.
Proof. unfold unlines. cbn [fmap list_fmap concat_strings foldr]. by rewrite append_assoc. Qed.

Lemma unlines_app (ls ks : list string) : unlines (ls ++ ks) = unlines ls +:+ unlines ks.
Proof. unfold unlines. by rewrite fmap_app, concat_strings_app. Qed.

Lemma literal_lines_unlines (lits : list string) :
  literal_lines lits = unlines (literal_line_list lits).
Proof.
  induction lits as [|x [|y lits] IH]; [done| |].
  - cbn [literal_lines literal_line_list]. rewrite unlines_cons.
    change (unlines []) with "". by rewrite !append_assoc, append_nil_r.
  - change (literal_lines (x :: y :: lits))
      with (x +:+ ", &" +:+ nl +:+ literal_lines (y :: lits)).
    change (literal_line_list (x :: y :: lits))
      with ((x +:+ ", &") :: literal_line_list (y :: lits)).
    by rewrite unlines_cons, IH, !append_assoc.
Qed.

Lemma length_literal_line_list (lits : list string) :
  length (literal_line_list lits) = length lits.
Proof.
  induction lits as [|x [|y lits] IH]; [done..|].
  change (literal_line_list (x :: y :: lits))
    with ((x +:+ ", &") :: literal_line_list (y :: lits)).
  simpl in *. by rewrite IH.
Qed.

Lemma lookup_literal_line_list (lits : list string) (i : nat) (x : string) :
  lits !! i = Some x →
  literal_line_list lits !! i
  = Some (x +:+ (if decide (S i = length lits) then " &" else ", &")).
Proof.
  revert i. induction lits as [|y [|z lits] IH]; intros i Hi; [done| |].
  - destruct i as [|i]; [|done]. by simplify_eq/=.
  - change (literal_line_list (y :: z :: lits))
      with ((y +:+ ", &") :: literal_line_list (z :: lits)).
    destruct i as [|i].
    + by simplify_eq/=.
    + change ((y :: z :: lits) !! S i) with ((z :: lits) !! i) in Hi.
      change (((y +:+ ", &") :: literal_line_list (z :: lits)) !! S i)
        with (literal_line_list (z :: lits) !! i).
      rewrite (IH i Hi). do 2 f_equal.
      repeat case_decide; simpl in *; (done || lia).
Qed.

Lemma render_decl_unlines (d : Decl) : render_decl d = unlines (decl_lines d).
Proof.
  unfold render_decl, decl_lines, decl_head.
  rewrite unlines_cons, unlines_app, literal_lines_unlines, unlines_cons.
  change (unlines []) with "". by rewrite !append_assoc, append_nil_r.
Qed.

(** On a value that is not negative, truncation is the floor. *)
Lemma fortran_int_is_floor (x : float) : negative x = false → fortran_int x = floor x.
Proof.
  unfold fortran_int, floor, negative.
  destruct (Prim2SF x) as [s| | |s m e]; try done.
  intros ->. f_equal. case_bool_decide; [done|].
  assert (0 < 2 ^ (- e)) by (apply Z.pow_pos_nonneg; lia).
  by rewrite Z.quot_div_nonneg by lia.
Qed.

(** Rounding keeps the sign, so products and quotients of values that are
    not negative are not negative, and neither is the double of a natural
    number. *)
Lemma binary_round_aux_sign (s : bool) (m e : Z) (l : location) :
  sf_negative (binary_round_aux prec emax s m e l) = true → s = true.
Proof.
  unfold binary_round_aux.
  destruct (shr_fexp prec emax m e l) as [mrs e'].
  destruct (shr_fexp prec emax _ e' loc_Exact) as [mrs' e''].
  destruct (shr_m mrs') as [|q|q]; [done| |done].
  by destruct (_ <=? _).
Qed.

Lemma SFmul_not_negative (a b : spec_float) :
  sf_negative a = false → sf_negative b = false → sf_negative (FloatAxioms.SF64mul a b) = false.
Proof.
  intros Ha Hb. apply not_true_is_false. intros Hneg.
  destruct a as [sa|sa| |sa ma ea], b as [sb|sb| |sb mb eb]; try done.
  cbn in Ha, Hb. subst. by apply binary_round_aux_sign in Hneg.
Qed.

Lemma SFdiv_not_negative (a b : spec_float) :
  sf_negative a = false → sf_negative b = false → sf_negative (FloatAxioms.SF64div a b) = false.
Proof.
  intros Ha Hb. apply not_true_is_false. intros Hneg.
  destruct a as [sa|sa| |sa ma ea], b as [sb|sb| |sb mb eb]; try done.
  cbn in Ha, Hb. subst. unfold FloatAxioms.SF64div, SFdiv in Hneg.
  destruct (SFdiv_core_binary prec emax (Z.pos ma) ea (Z.pos mb) eb) as [[mz ez] lz].
  by apply binary_round_aux_sign in Hneg.
Qed.

Lemma float_of_Z_not_negative (z : Z) : 0 ≤ z → negative (float_of_Z z) = false.
Proof.
  intros Hz. destruct z as [|p|p]; [done| |lia].
  unfold float_of_Z, negative. rewrite FloatAxioms.of_uint63_spec.
  change (sf_negative (binary_normalize prec emax (Uint63.to_Z (Uint63.of_Z (Z.pos p))) 0 false)
          = false).
  pose proof (Uint63.to_Z_bounded (Uint63.of_Z (Z.pos p))) as Hb.
  destruct (Uint63.to_Z (Uint63.of_Z (Z.pos p))) as [|q|q]; [done| |lia].
  apply not_true_is_false. intros Hneg.
  unfold binary_normalize, binary_round in Hneg.
  destruct (shl_align q 0 _) as [mz ez].
  by apply binary_round_aux_sign in Hneg.
Qed.

Lemma offset_product_not_negative (x : float) (n : Z) :
  negative x = false → 0 ≤ n →
  negative (PrimFloat.mul (PrimFloat.div x L) (float_of_Z n)) = false.
Proof.
  intros Hx Hn. unfold negative.
  rewrite FloatAxioms.mul_spec, FloatAxioms.div_spec.
  apply SFmul_not_negative; [apply SFdiv_not_negative; done|].
  by apply float_of_Z_not_negative.
Qed.

(** * The generator's properties *)

Section Properties.
Context {Sample Case : Type} `{!CaseAPI Sample Case}.
Variable str : Sample → string.
Implicit Types (c : Case) (fs : gmap string string) (args : Namespace).

(** C1, as amended.  When the dataset supplies every field, the declarations
    file is the header line followed by one static array declaration per
    destination id [v = 1..K], in ascending order of [v].  The declaration
    for [v] is declared [(0:nx-1)] with [nx] the length of the translated
    source field at snapshot 0; for [v ≠ 3] its literals are the samples of
    that field at snapshot 14694, in their order, each printed with [str]
    (so there are exactly [nx] of them when the two snapshots have the same
    length); for [v = 3] they are [nx] copies of [0.0]. *)
Theorem declarations_file args c fs :
  first_failure c (seqZ 1 16) = None →
  ∃ σ, run (main str args) c fs = (Ok (), σ)
    ∧ st_files σ !! ic_decl_path
      = Some (render_decls (decl_of str c <$> seqZ 1 (num_eqns + num_dims - 1)))
    ∧ ∀ v, 1 ≤ v ≤ num_eqns + num_dims - 1 →
        d_id (decl_of str c v) = v
        ∧ d_nx (decl_of str c v) = len (field c v 0)
        ∧ (v ≠ 3 →
             len (d_literals (decl_of str c v)) = len (field c v 14694)
             ∧ ∀ (i : nat) x, field c v 14694 !! i = Some x →
                 d_literals (decl_of str c v) !! i = Some (str x))
        ∧ (v = 3 →
             len (d_literals (decl_of str c v)) = d_nx (decl_of str c v)
             ∧ ∀ s, s ∈ d_literals (decl_of str c v) → s = "0.0")
        ∧ (len (field c v 0) = len (field c v 14694) →
             len (d_literals (decl_of str c v)) = d_nx (decl_of str c v)).
Proof.
  intros Hok. eexists. split; [by apply main_ok|]. split.
  { cbn [st_files]. rewrite lookup_insert_ne by done. by rewrite lookup_insert_eq. }
  intros v Hv. unfold decl_of, nx_at. cbn [d_id d_nx d_literals].
  split_and!; [done..| | |].
  - intros Hv3. rewrite bool_decide_false by done. split.
    + unfold len. by rewrite length_fmap.
    + intros i x Hx. by rewrite list_lookup_fmap, Hx.
  - intros ->. rewrite bool_decide_true by done. split.
    + unfold len. rewrite length_replicate. lia.
    + by intros s ?%elem_of_replicate_inv.
  - intros Hlen. case_bool_decide.
    + unfold len. rewrite length_replicate. lia.
    + unfold len in *. by rewrite length_fmap.
Qed.

(** C2.  The branch file is a single [case (666)] branch: its lines are the
    guard, the [i_offset] statement, and then, for [v = 1..K-1] in order,
    the assignment of [varv] at the clamped index to [q_prim_vf(v)].  Each
    of these ids is assigned on exactly one line, and no line assigns the
    last id [K]. *)
Theorem branch_file args c fs :
  first_failure c (seqZ 1 16) = None →
  ∃ σ nx content,
    run (main str args) c fs = (Ok (), σ)
    ∧ st_nx σ = Some nx
    ∧ st_files σ !! ic_def_path = Some content
    ∧ split_lines content
      = "case (666)" :: offset_text nx
          :: (assign_text nx <$> seqZ 1 (num_eqns + num_dims - 1 - 1))
    ∧ (∀ v, assign_text nx v
            = "    q_prim_vf(" +:+ pretty v +:+ ")%sf(i, j, 0) = var" +:+ pretty v +:+
              "(min(i_offset+i, " +:+ pretty (nx - 1) +:+ "))")
    ∧ (∀ v, 1 ≤ v ≤ num_eqns + num_dims - 1 - 1 →
         split_lines content !! Z.to_nat (v + 1) = Some (assign_text nx v))
    ∧ (∀ (j : nat) v n', split_lines content !! j = Some (assign_text n' v) →
         j = Z.to_nat (v + 1) ∧ 1 ≤ v ≤ num_eqns + num_dims - 1 - 1)
    ∧ (∀ (j : nat) n', split_lines content !! j
                       ≠ Some (assign_text n' (num_eqns + num_dims - 1))).
Proof.
  intros Hok. eexists _, (nx_at c 16), _.
  split; [by apply main_ok|]. split; [done|].
  split; [by cbn [st_files]; rewrite lookup_insert_eq|].
  rewrite split_render_branch. change (num_eqns + num_dims - 1 - 1) with 15.
  clear Hok. generalize (nx_at c 16). intros nx.
  assert (∀ v, 1 ≤ v ≤ 15 →
            branch_lines nx (seqZ 1 15) !! Z.to_nat (v + 1)
            = Some (assign_text nx v)) as Hat.
  { intros v Hv. unfold branch_lines.
    replace (Z.to_nat (v + 1)) with (S (S (Z.to_nat (v - 1)))) by lia.
    change ((assign_text nx <$> seqZ 1 15) !! Z.to_nat (v - 1)
            = Some (assign_text nx v)).
    rewrite list_lookup_fmap, lookup_seqZ_lt by lia.
    simpl. do 2 f_equal. lia. }
  assert (∀ (j : nat) v n',
            branch_lines nx (seqZ 1 15) !! j = Some (assign_text n' v) →
            j = Z.to_nat (v + 1) ∧ 1 ≤ v ≤ 15) as Hone.
  { intros j v n' Hj. unfold branch_lines in Hj.
    destruct j as [|[|j]]; [by simplify_eq/=..|].
    change ((assign_text nx <$> seqZ 1 15) !! j = Some (assign_text n' v)) in Hj.
    rewrite list_lookup_fmap in Hj.
    destruct (seqZ 1 15 !! j) as [u|] eqn:Hu; [|done].
    apply lookup_seqZ in Hu as [-> ?]. simpl in Hj.
    apply (inj Some), assign_text_inj in Hj as <-. lia. }
  split_and!; [done| |done|done|].
  - intros v. unfold assign_text. cbn [index_exp show]. by rewrite !append_assoc.
  - intros j n' Hj. apply Hone in Hj as [_ Hv].
    change (num_eqns + num_dims - 1) with 16 in Hv. lia.
Qed.

(** C3, as amended.  The source id is [v] for [v < 3] and [v - 1] for
    [v ≥ 3]; in particular destination id 3 translates to source id 2.  In a
    complete run the dataset is accessed, for each [v = 1..K] in turn, by a
    load of the source field, a read of its snapshot 0 (for [nx]) and, for
    [v ≠ 3] only, a read of its snapshot 14694.  So for [v = 3] field 2 is
    loaded again and measured, but none of its samples is used: in the
    declarations file the run leaves, the declarations of ids 1 and 2 are
    followed by the one of [var3], whose text is fixed by the length [nx]
    of field 2 at snapshot 0 alone: the bound [nx - 1] and [nx] literal
    lines, each the literal [0.0]. *)
Theorem source_id_translation args c fs :
  first_failure c (seqZ 1 16) = None →
  (∀ v, v < 3 → var_init v = v)
  ∧ (∀ v, 3 ≤ v → var_init v = v - 1)
  ∧ ∃ σ, run (main str args) c fs = (Ok (), σ)
      ∧ st_calls σ = concat (accesses <$> seqZ 1 (num_eqns + num_dims - 1))
      ∧ accesses 3 = [ALoad "2" "prim.2"; ARead 0 "2"]
      ∧ (∀ v, v ≠ 3 →
           accesses v = [ALoad (pretty (var_init v)) ("prim." +:+ pretty (var_init v));
                         ARead 0 (pretty (var_init v));
                         ARead 14694 (pretty (var_init v))])
      ∧ st_files σ !! ic_decl_path
        = Some (render_decls (decl_of str c <$> seqZ 1 2)
                +:+ unlines (("real(kind(0d0)) :: var3(0:" +:+
                              pretty (len (field c 3 0) - 1) +:+ ") = [ &")
                             :: literal_line_list (replicate (length (field c 3 0)) "0.0")
                             ++ ["]"])
                +:+ concat_strings (render_decl <$> (decl_of str c <$> seqZ 4 13)))
      ∧ length (literal_line_list (replicate (length (field c 3 0)) "0.0"))
        = length (field c 3 0)
      ∧ (∀ i : nat, (i < length (field c 3 0))%nat →
           literal_line_list (replicate (length (field c 3 0)) "0.0") !! i
           = Some (if decide (S i = length (field c 3 0)) then "0.0 &" else "0.0, &")).
Proof.
  intros Hok. split_and!.
  - intros v Hv. unfold var_init. by rewrite bool_decide_true.
  - intros v Hv. unfold var_init. rewrite bool_decide_false; [done|lia].
  - eexists. split; [by apply main_ok|]. split_and!; try done.
    + intros v Hv. unfold accesses. by rewrite bool_decide_true.
    + cbn [st_files]. rewrite lookup_insert_ne by apply paths_differ.
      rewrite lookup_insert_eq. f_equal.
      change (seqZ 1 16) with (seqZ 1 2 ++ 3 :: seqZ 4 13).
      unfold render_decls.
      rewrite !fmap_app, concat_strings_app, !fmap_cons.
      cbn [concat_strings foldr].
      change (foldr String.append "" (render_decl <$> (decl_of str c <$> seqZ 4 13)))
        with (concat_strings (render_decl <$> (decl_of str c <$> seqZ 4 13))).
      rewrite render_decl_unlines. unfold decl_lines, decl_head, decl_of.
      cbn [d_id d_nx d_literals]. rewrite bool_decide_true by done.
      unfold nx_at, len. rewrite Nat2Z.id. by rewrite !append_assoc.
    + by rewrite length_literal_line_list, length_replicate.
    + intros i Hi.
      rewrite (lookup_literal_line_list _ i "0.0") by (by apply lookup_replicate_2).
      rewrite length_replicate. by case_decide.
Qed.

(** C4, as amended.  Every assignment of the branch file subscripts its
    profile with [min(i_offset+i, nx-1)], [nx] being the value the last
    iteration left.  For any [i_offset] and [i] this index is at most
    [nx - 1], and it is [nx - 1] for every cell with [i_offset + i ≥ nx].
    Nothing clamps it from below: it is non-negative exactly when
    [i_offset + i ≥ 0] and [nx ≥ 1], and then it is within the bounds of
    every array that was declared with at least [nx] elements. *)
Theorem lookup_index_clamped args c fs (off i : Z) :
  first_failure c (seqZ 1 16) = None →
  ∃ σ nx content,
    run (main str args) c fs = (Ok (), σ)
    ∧ st_nx σ = Some nx
    ∧ st_files σ !! ic_def_path = Some content
    ∧ (∀ v, 1 ≤ v ≤ 15 →
         split_lines content !! Z.to_nat (v + 1)
         = Some ("    q_prim_vf(" +:+ pretty v +:+ ")%sf(i, j, 0) = var" +:+ pretty v +:+
                 "(" +:+ show (index_exp nx) +:+ ")"))
    ∧ ∃ k, eval {[ "i_offset" := VInt off; "i" := VInt i ]} (index_exp nx) = Some (VInt k)
        ∧ k = (off + i) `min` (nx - 1)
        ∧ k ≤ nx - 1
        ∧ (nx ≤ off + i → k = nx - 1)
        ∧ (0 ≤ k ↔ 0 ≤ off + i ∧ 1 ≤ nx)
        ∧ (∀ v, 1 ≤ v ≤ 15 → nx ≤ d_nx (decl_of str c v) →
             (0 ≤ k ≤ d_nx (decl_of str c v) - 1 ↔ 0 ≤ off + i ∧ 1 ≤ nx)).
Proof.
  intros Hok. eexists _, (nx_at c 16), _.
  split; [by apply main_ok|]. split; [done|].
  split; [by cbn [st_files]; rewrite lookup_insert_eq|].
  rewrite split_render_branch. split.
  - intros v Hv. unfold branch_lines.
    replace (Z.to_nat (v + 1)) with (S (S (Z.to_nat (v - 1)))) by lia.
    change ((assign_text (nx_at c 16) <$> seqZ 1 15) !! Z.to_nat (v - 1)
            = Some (assign_text (nx_at c 16) v)).
    rewrite list_lookup_fmap, lookup_seqZ_lt by lia.
    simpl. do 2 f_equal. lia.
  - eexists. split; [by apply index_exp_eval|].
    split_and!; [lia..|]. intros v _ Hnx. lia.
Qed.

(** C5.  The branch file assigns [i_offset] on exactly one line, the one
    after the guard: [i_offset = int(x_cc(0)/0.12d0*(nx-1))], so it is
    computed once per execution of the branch.  Where the branch can run,
    that is for a first cell coordinate [x_cc(0)] that is not negative (the
    domain starts at 0) and arrays of at least one element ([nx ≥ 1]), the
    value is the floor of the double-precision product
    [x_cc(0) / 0.12 * (nx - 1)]: [int] truncates toward zero, and the
    product is not negative.  (In general [int] gives the floor or one
    more.)  The constant [0.12d0] is the [L] of the case file, whose domain
    spans [0..2L] in x. *)
Theorem offset_statement args c fs :
  first_failure c (seqZ 1 16) = None →
  ∃ σ nx content,
    run (main str args) c fs = (Ok (), σ)
    ∧ st_nx σ = Some nx
    ∧ st_files σ !! ic_def_path = Some content
    ∧ split_lines content !! 1%nat
      = Some ("    i_offset = int(x_cc(0)/0.12d0*" +:+ pretty (nx - 1) +:+ ")")
    ∧ (∀ (j : nat) n', split_lines content !! j = Some (offset_text n') → j = 1%nat)
    ∧ offset_text nx = "    i_offset = " +:+ show (offset_exp nx)
    ∧ (∀ x, eval {[ "x_cc(0)" := VReal x ]} (offset_exp nx)
            = VInt <$> fortran_int (PrimFloat.mul (PrimFloat.div x L) (float_of_Z (nx - 1))))
    ∧ (1 ≤ nx → ∀ x, negative x = false →
         eval {[ "x_cc(0)" := VReal x ]} (offset_exp nx)
         = VInt <$> floor (PrimFloat.mul (PrimFloat.div x L) (float_of_Z (nx - 1))))
    ∧ (∀ x z, fortran_int x = Some z →
         ∃ z', floor x = Some z' ∧ (z' = z ∨ z' = z - 1) ∧ (negative x = false → z' = z))
    ∧ x_scale = FDouble "0.12d0" L
    ∧ x_domain_beg = 0%float ∧ x_domain_end = PrimFloat.mul L 2.
Proof.
  intros Hok. eexists _, (nx_at c 16), _.
  split; [by apply main_ok|]. split; [done|].
  split; [by cbn [st_files]; rewrite lookup_insert_eq|].
  rewrite split_render_branch. clear Hok. generalize (nx_at c 16). intros nx.
  split_and!; try done.
  - intros j n' Hj. unfold branch_lines in Hj.
    destruct j as [|[|j]]; [by simplify_eq/=|done|].
    change ((assign_text nx <$> seqZ 1 15) !! j = Some (offset_text n')) in Hj.
    rewrite list_lookup_fmap in Hj.
    destruct (seqZ 1 15 !! j) as [u|]; by simplify_eq/=.
  - intros Hnx x Hx.
    rewrite <-fortran_int_is_floor by (apply offset_product_not_negative; [done|lia]).
    done.
  - apply fortran_int_floor.
Qed.

(** C6, as amended.  [nx] is computed anew in every iteration, as the length
    of the snapshot-0 array of that iteration's source field: the
    declaration for [v] uses the value of its own iteration, and the branch
    file uses the value left by the last one (destination 16, source id 15)
    for both the clamp bound and the offset scale.  When all these lengths
    agree, that is one value, the length for source id 1, used everywhere. *)
Theorem nx_per_variable args c fs :
  first_failure c (seqZ 1 16) = None →
  ∃ σ, run (main str args) c fs = (Ok (), σ)
    ∧ st_files σ !! ic_decl_path = Some (render_decls (decl_of str c <$> seqZ 1 16))
    ∧ st_files σ !! ic_def_path = Some (render_branch (len (field c 16 0)) (seqZ 1 15))
    ∧ st_nx σ = Some (len (field c 16 0))
    ∧ var_init 16 = 15 ∧ var_init 1 = 1
    ∧ (∀ v, 1 ≤ v ≤ 16 → d_nx (decl_of str c v) = len (field c v 0))
    ∧ ((∀ v, 1 ≤ v ≤ 16 → len (field c v 0) = len (field c 1 0)) →
         (∀ v, 1 ≤ v ≤ 16 → d_nx (decl_of str c v) = len (field c 1 0))
         ∧ st_nx σ = Some (len (field c 1 0))
         ∧ st_files σ !! ic_def_path
           = Some (render_branch (len (field c 1 0)) (seqZ 1 15))).
Proof.
  intros Hok. eexists. split; [by apply main_ok|]. cbn [st_files st_nx].
  rewrite lookup_insert_eq, lookup_insert_ne, lookup_insert_eq by done.
  unfold nx_at. split_and!; try done.
  intros Hall. split_and!.
  - intros v Hv. unfold decl_of, nx_at. cbn [d_nx]. by apply Hall.
  - by rewrite (Hall 16).
  - by rewrite (Hall 16).
Qed.

(** C7.  Generation is a function of the dataset alone: whatever the file
    system held before, two runs on the same dataset end the same way and
    leave the same declarations file, and the same branch file when they
    finish; and a second run, started on the files the first one left,
    leaves every file as it was. *)
Theorem generation_deterministic args c fs fs' :
  (run (main str args) c fs).1 = (run (main str args) c fs').1
  ∧ st_files (run (main str args) c fs).2 !! ic_decl_path
    = st_files (run (main str args) c fs').2 !! ic_decl_path
  ∧ ((run (main str args) c fs).1 = Ok () →
       st_files (run (main str args) c fs).2 !! ic_def_path
       = st_files (run (main str args) c fs').2 !! ic_def_path)
  ∧ st_files (run (main str args) c (st_files (run (main str args) c fs).2)).2
    = st_files (run (main str args) c fs).2.
Proof.
  destruct (artifacts_independent str args args c fs fs') as (Hout & Hdecl & Hdef).
  split_and!; [done..|].
  destruct (first_failure c (seqZ 1 16)) as [[v e]|] eqn:Hff.
  - destruct (main_fail str args c fs v e Hff) as (σ1 & Hr1 & Hf1).
    destruct (main_fail str args c (st_files σ1) v e Hff) as (σ3 & Hr3 & Hf3).
    rewrite Hr1. cbn [snd]. rewrite Hr3. cbn [snd].
    by rewrite Hf3, Hf1, insert_insert_eq.
  - rewrite !(main_ok str args) by done. cbn [snd st_files].
    apply artifacts_rewritten.
Qed.

(** C8, as amended.  Nothing is validated.  The script raises exactly when
    some iteration's load or subscript does, and then with that exception:
    by then the declarations file has been created and holds the header and
    the complete declarations of the earlier ids, and no other file has
    been touched.  Otherwise it finishes and writes both files, whatever
    the lengths of the arrays. *)
Theorem dataset_failure_outcome args c fs :
  match first_failure c (seqZ 1 16) with
  | Some (v, e) =>
      1 ≤ v ≤ 16 ∧ failure_at c v = Some e
      ∧ (∀ u, 1 ≤ u < v → failure_at c u = None)
      ∧ ∃ σ, run (main str args) c fs = (Raise e, σ)
          ∧ st_files σ !! ic_decl_path
            = Some (render_decls (decl_of str c <$> seqZ 1 (v - 1)))
          ∧ ∀ p, p ≠ ic_decl_path → st_files σ !! p = fs !! p
  | None =>
      (∀ v, 1 ≤ v ≤ 16 → failure_at c v = None)
      ∧ ∃ σ, run (main str args) c fs = (Ok (), σ)
          ∧ is_Some (st_files σ !! ic_decl_path)
          ∧ is_Some (st_files σ !! ic_def_path)
  end.
Proof.
  destruct (first_failure c (seqZ 1 16)) as [[v e]|] eqn:Hff.
  - destruct (first_failure_Some c 1 16 v e Hff) as (Hv & Hfail & Hbefore).
    split_and!; [lia..|done|done|].
    destruct (main_fail str args c fs v e Hff) as (σ & Hrun & Hfs).
    exists σ. rewrite Hfs. split_and!; [done|by rewrite lookup_insert_eq|].
    intros p Hp. by rewrite lookup_insert_ne.
  - split.
    + intros v Hv. eapply first_failure_None; [done|]. apply elem_of_seqZ. lia.
    + eexists. split; [by apply main_ok|]. cbn [st_files].
      rewrite lookup_insert_eq, lookup_insert_ne, lookup_insert_eq by done. eauto.
Qed.

(** C9.  For every destination id [v] other than the synthetic id 3, the
    declared extent [0..nx-1] comes from the length of the translated source
    field at snapshot 0, the literals are the samples of that field at
    snapshot 14694, and the number of literals equals the declared size
    exactly when the two arrays have the same length. *)
Theorem extent_and_literals args c fs v :
  first_failure c (seqZ 1 16) = None →
  1 ≤ v ≤ 16 → v ≠ 3 →
  ∃ σ ds d,
    run (main str args) c fs = (Ok (), σ)
    ∧ st_files σ !! ic_decl_path = Some (render_decls ds)
    ∧ ds !! Z.to_nat (v - 1) = Some d
    ∧ d_id d = v
    ∧ d_nx d = len (field c v 0)
    ∧ d_literals d = str <$> field c v 14694
    ∧ (len (d_literals d) = declared_size d ↔ len (field c v 0) = len (field c v 14694)).
Proof.
  intros Hok Hv Hv3. eexists _, _, (decl_of str c v).
  split; [by apply main_ok|]. cbn [st_files].
  rewrite lookup_insert_ne, lookup_insert_eq by done. split; [done|].
  split.
  { rewrite list_lookup_fmap, lookup_seqZ_lt by lia. simpl. do 2 f_equal. lia. }
  unfold decl_of, declared_size, nx_at. cbn [d_id d_nx d_literals].
  rewrite bool_decide_false by done. split_and!; try done.
  unfold len. rewrite length_fmap. lia.
Qed.

(** C10.  [--scale] is parsed and never used: for any two values of it
    (given or left to its default) the script is the same statement, and two
    runs on the same dataset end the same way and leave the same
    declarations file, and the same branch file when they finish. *)
Theorem scale_unused (scale1 scale2 : option float) c fs fs' :
  main str (parse_args scale1) = main str (parse_args scale2)
  ∧ (run (main str (parse_args scale1)) c fs).1
    = (run (main str (parse_args scale2)) c fs').1
  ∧ st_files (run (main str (parse_args scale1)) c fs).2 !! ic_decl_path
    = st_files (run (main str (parse_args scale2)) c fs').2 !! ic_decl_path
  ∧ ((run (main str (parse_args scale1)) c fs).1 = Ok () →
       st_files (run (main str (parse_args scale1)) c fs).2 !! ic_def_path
       = st_files (run (main str (parse_args scale2)) c fs').2 !! ic_def_path).
Proof.
  split; [reflexivity|].
  apply artifacts_independent.
Qed.

End Properties.

(** * Worked examples *)

(** The end-to-end scenario of the specification: the first three
    declarations carry [1.0, 2.0, 3.0], [4.0, 5.0, 6.0] and three zeros. *)
Example end_to_end_scenario :
  (run (main str_Z default_args) ds_scenario ∅).1 = Ok ()
  ∧ render_decl <$> (decl_of str_Z ds_scenario <$> seqZ 1 3)
    = [unlines ["real(kind(0d0)) :: var1(0:2) = [ &"; "1.0, &"; "2.0, &"; "3.0 &"; "]"];
       unlines ["real(kind(0d0)) :: var2(0:2) = [ &"; "4.0, &"; "5.0, &"; "6.0 &"; "]"];
       unlines ["real(kind(0d0)) :: var3(0:2) = [ &"; "0.0, &"; "0.0, &"; "0.0 &"; "]"]].
Proof. split; vm_compute; reflexivity. Qed.

(** C1, an instance: the boundary scenario [nx = 1], where the first
    declaration is [var1(0:0) = [5.0]]. *)
Lemma declarations_file_witness :
  first_failure ds_single (seqZ 1 16) = None
  ∧ ∃ σ, run (main str_Z default_args) ds_single ∅ = (Ok (), σ)
      ∧ st_files σ !! ic_decl_path
        = Some (render_decls (decl_of str_Z ds_single <$> seqZ 1 16))
      ∧ render_decl (decl_of str_Z ds_single 1)
        = unlines ["real(kind(0d0)) :: var1(0:0) = [ &"; "5.0 &"; "]"].
Proof.
  split; [vm_compute; reflexivity|].
  destruct (declarations_file str_Z default_args ds_single ∅) as (σ & Hrun & Hfile & _);
    [vm_compute; reflexivity|].
  exists σ. split_and!; [exact Hrun|exact Hfile|vm_compute; reflexivity].
Defined.

(** C1 as stated fails: field 1 has one sample at snapshot 0 and two at
    snapshot 14694, and the run declares [var1(0:0)], one element, with two
    literals. *)
Lemma literal_count_counterexample :
  (run (main str_Z default_args) ds_uneven ∅).1 = Ok ()
  ∧ st_files (run (main str_Z default_args) ds_uneven ∅).2 !! ic_decl_path
    = Some (render_decls (decl_of str_Z ds_uneven <$> seqZ 1 16))
  ∧ render_decl (decl_of str_Z ds_uneven 1)
    = unlines ["real(kind(0d0)) :: var1(0:0) = [ &"; "7.0, &"; "8.0 &"; "]"]
  ∧ declared_size (decl_of str_Z ds_uneven 1) = 1
  ∧ len (d_literals (decl_of str_Z ds_uneven 1)) = 2.
Proof. split_and!; vm_compute; reflexivity. Qed.

(** C2, an instance: the branch file of the boundary scenario. *)
Lemma branch_file_witness :
  first_failure ds_single (seqZ 1 16) = None
  ∧ ∃ σ nx content,
      run (main str_Z default_args) ds_single ∅ = (Ok (), σ)
      ∧ st_nx σ = Some nx
      ∧ st_files σ !! ic_def_path = Some content
      ∧ split_lines content
        = "case (666)" :: offset_text nx :: (assign_text nx <$> seqZ 1 15).
Proof.
  split; [vm_compute; reflexivity|].
  destruct (branch_file str_Z default_args ds_single ∅)
    as (σ & nx & content & Hrun & Hnx & Hfile & Hlines & _); [vm_compute; reflexivity|].
  exists σ, nx, content. split_and!; [exact Hrun|exact Hnx|exact Hfile|exact Hlines].
Defined.

(** C3, an instance: the accesses of a complete run. *)
Lemma source_id_translation_witness :
  first_failure ds_scenario (seqZ 1 16) = None
  ∧ ∃ σ, run (main str_Z default_args) ds_scenario ∅ = (Ok (), σ)
      ∧ st_calls σ = concat (accesses <$> seqZ 1 16)
      ∧ ∃ before after,
          st_files σ !! ic_decl_path
          = Some (before
                  +:+ unlines ["real(kind(0d0)) :: var3(0:2) = [ &";
                               "0.0, &"; "0.0, &"; "0.0 &"; "]"]
                  +:+ after).
Proof.
  split; [vm_compute; reflexivity|].
  destruct (source_id_translation str_Z default_args ds_scenario ∅)
    as (_ & _ & σ & Hrun & Hcalls & _ & _ & Hfile & _); [vm_compute; reflexivity|].
  exists σ. split; [exact Hrun|]. split; [exact Hcalls|].
  eexists _, _. rewrite Hfile. f_equal.
Defined.

(** C3 as stated fails: destination id 3 has the source id 2, and the third
    iteration loads field 2 and reads its snapshot 0; the declaration of
    [var3] follows the length of that array. *)
Lemma slot3_read_counterexample :
  var_init 3 = 2
  ∧ st_calls (run (main str_Z default_args) ds_scenario ∅).2 !! 6%nat
    = Some (ALoad "2" "prim.2")
  ∧ st_calls (run (main str_Z default_args) ds_scenario ∅).2 !! 7%nat
    = Some (ARead 0 "2")
  ∧ render_decl (decl_of str_Z ds_single 3)
    = unlines ["real(kind(0d0)) :: var3(0:0) = [ &"; "0.0 &"; "]"]
  ∧ render_decl (decl_of str_Z ds_ragged 3)
    = unlines ["real(kind(0d0)) :: var3(0:1) = [ &"; "0.0, &"; "0.0 &"; "]"].
Proof. split_and!; vm_compute; reflexivity. Qed.

(** C4, an instance: [nx = 3], [i_offset = 2], [i = 5]. *)
Lemma lookup_index_clamped_witness :
  first_failure ds_scenario (seqZ 1 16) = None
  ∧ ∃ σ nx k,
      run (main str_Z default_args) ds_scenario ∅ = (Ok (), σ)
      ∧ st_nx σ = Some nx
      ∧ eval {[ "i_offset" := VInt 2; "i" := VInt 5 ]} (index_exp nx) = Some (VInt k)
      ∧ k ≤ nx - 1.
Proof.
  split; [vm_compute; reflexivity|].
  destruct (lookup_index_clamped str_Z default_args ds_scenario ∅ 2 5)
    as (σ & nx & content & Hrun & Hnx & _ & _ & k & Heval & _ & Hk & _);
    [vm_compute; reflexivity|].
  exists σ, nx, k. split_and!; [exact Hrun|exact Hnx|exact Heval|exact Hk].
Defined.

(** C4 as stated fails.  In the boundary scenario [var1] is declared
    [(0:0)], and with [i_offset = -1] and [i = 0] the emitted subscript
    evaluates to [-1], below the array.  And when field 1 has one sample
    and the last field two, [var1] is declared [(0:0)] while the subscript
    is clamped at 1: with [i_offset = 1] and [i = 0] it evaluates to 1,
    above the array. *)
Lemma lookup_out_of_range_counterexample :
  (run (main str_Z default_args) ds_single ∅).1 = Ok ()
  ∧ st_files (run (main str_Z default_args) ds_single ∅).2 !! ic_def_path
    = Some (render_branch 1 (seqZ 1 15))
  ∧ split_lines (render_branch 1 (seqZ 1 15)) !! 2%nat
    = Some "    q_prim_vf(1)%sf(i, j, 0) = var1(min(i_offset+i, 0))"
  ∧ render_decl (decl_of str_Z ds_single 1)
    = unlines ["real(kind(0d0)) :: var1(0:0) = [ &"; "5.0 &"; "]"]
  ∧ eval {[ "i_offset" := VInt (-1); "i" := VInt 0 ]} (index_exp 1) = Some (VInt (-1))
  ∧ (run (main str_Z default_args) ds_ragged ∅).1 = Ok ()
  ∧ split_lines <$> st_files (run (main str_Z default_args) ds_ragged ∅).2 !! ic_def_path
    = Some (branch_lines 2 (seqZ 1 15))
  ∧ branch_lines 2 (seqZ 1 15) !! 2%nat
    = Some "    q_prim_vf(1)%sf(i, j, 0) = var1(min(i_offset+i, 1))"
  ∧ render_decl (decl_of str_Z ds_ragged 1)
    = unlines ["real(kind(0d0)) :: var1(0:0) = [ &"; "5.0 &"; "]"]
  ∧ eval {[ "i_offset" := VInt 1; "i" := VInt 0 ]} (index_exp 2) = Some (VInt 1).
Proof. split_and!; vm_compute; reflexivity. Qed.

(** C5, an instance: the end-to-end scenario, [nx = 3], at the first cell
    centre [0.00015] of the 800-cell grid on [0..0.24]. *)
Lemma offset_statement_witness :
  first_failure ds_scenario (seqZ 1 16) = None
  ∧ ∃ σ nx content,
      run (main str_Z default_args) ds_scenario ∅ = (Ok (), σ)
      ∧ st_nx σ = Some nx
      ∧ 1 ≤ nx
      ∧ negative 0.00015 = false
      ∧ st_files σ !! ic_def_path = Some content
      ∧ split_lines content !! 1%nat
        = Some ("    i_offset = int(x_cc(0)/0.12d0*" +:+ pretty (nx - 1) +:+ ")")
      ∧ eval {[ "x_cc(0)" := VReal 0.00015 ]} (offset_exp nx)
        = VInt <$> floor (PrimFloat.mul (PrimFloat.div 0.00015 L) (float_of_Z (nx - 1))).
Proof.
  split; [vm_compute; reflexivity|].
  destruct (offset_statement str_Z default_args ds_scenario ∅)
    as (σ & nx & content & Hrun & Hnx & Hfile & Hline & _ & _ & _ & Hfloor & _);
    [vm_compute; reflexivity|].
  assert (1 ≤ nx) as Hpos.
  { assert (Some nx = Some 3) as [= ->]; [|done].
    rewrite <-Hnx.
    transitivity (st_nx (run (main str_Z default_args) ds_scenario ∅).2);
      [by rewrite Hrun|vm_compute; reflexivity]. }
  exists σ, nx, content.
  split_and!; [exact Hrun|exact Hnx|exact Hpos|reflexivity|exact Hfile|exact Hline|].
  apply (Hfloor Hpos). reflexivity.
Defined.

(** Outside these inputs truncation and floor differ.  For [nx = 3] the
    statement is [i_offset = int(x_cc(0)/0.12d0*2)], and at the negative
    coordinate [-0.01] it yields 0 where the floor of the same product is
    -1.  For empty arrays the statement is
    [i_offset = int(x_cc(0)/0.12d0*-1)], and at [0.00015] it yields 0, the
    floor being -1. *)
Example offset_outside_domain :
  st_files (run (main str_Z default_args) ds_scenario ∅).2 !! ic_def_path
  = Some (render_branch 3 (seqZ 1 15))
  ∧ split_lines (render_branch 3 (seqZ 1 15)) !! 1%nat
    = Some "    i_offset = int(x_cc(0)/0.12d0*2)"
  ∧ eval {[ "x_cc(0)" := VReal (-0.01) ]} (offset_exp 3) = Some (VInt 0)
  ∧ floor (PrimFloat.mul (PrimFloat.div (-0.01) 0.12) (float_of_Z 2)) = Some (-1)
  ∧ st_files (run (main str_Z default_args) ds_empty ∅).2 !! ic_def_path
    = Some (render_branch 0 (seqZ 1 15))
  ∧ split_lines (render_branch 0 (seqZ 1 15)) !! 1%nat
    = Some "    i_offset = int(x_cc(0)/0.12d0*-1)"
  ∧ eval {[ "x_cc(0)" := VReal 0.00015 ]} (offset_exp 0) = Some (VInt 0)
  ∧ floor (PrimFloat.mul (PrimFloat.div 0.00015 0.12) (float_of_Z (-1))) = Some (-1).
Proof. split_and!; vm_compute; reflexivity. Qed.

(** C6, an instance: the end-to-end scenario, where every field has three
    samples. *)
Lemma nx_per_variable_witness :
  first_failure ds_scenario (seqZ 1 16) = None
  ∧ ∃ σ, run (main str_Z default_args) ds_scenario ∅ = (Ok (), σ)
      ∧ st_nx σ = Some (len (field ds_scenario 16 0))
      ∧ ∀ v, 1 ≤ v ≤ 16 → d_nx (decl_of str_Z ds_scenario v) = len (field ds_scenario v 0).
Proof.
  split; [vm_compute; reflexivity|].
  destruct (nx_per_variable str_Z default_args ds_scenario ∅)
    as (σ & Hrun & _ & _ & Hnx & _ & _ & Hdecl & _); [vm_compute; reflexivity|].
  exists σ. split_and!; [exact Hrun|exact Hnx|exact Hdecl].
Defined.

(** C6 as stated fails: field 1 has one sample and the others two; [var1]
    is declared [(0:0)] and [var2] [(0:1)], and the branch file clamps at 1,
    not at the length for source id 1 less one. *)
Lemma nx_not_single_counterexample :
  (run (main str_Z default_args) ds_ragged ∅).1 = Ok ()
  ∧ len (field ds_ragged 1 0) = 1
  ∧ st_files (run (main str_Z default_args) ds_ragged ∅).2 !! ic_decl_path
    = Some (render_decls (decl_of str_Z ds_ragged <$> seqZ 1 16))
  ∧ render_decl (decl_of str_Z ds_ragged 1)
    = unlines ["real(kind(0d0)) :: var1(0:0) = [ &"; "5.0 &"; "]"]
  ∧ render_decl (decl_of str_Z ds_ragged 2)
    = unlines ["real(kind(0d0)) :: var2(0:1) = [ &"; "5.0, &"; "6.0 &"; "]"]
  ∧ st_files (run (main str_Z default_args) ds_ragged ∅).2 !! ic_def_path
    = Some (render_branch 2 (seqZ 1 15))
  ∧ split_lines (render_branch 2 (seqZ 1 15)) !! 2%nat
    = Some "    q_prim_vf(1)%sf(i, j, 0) = var1(min(i_offset+i, 1))".
Proof. split_and!; vm_compute; reflexivity. Qed.

(** C8 as stated fails: with arrays of different lengths the run finishes
    without any error; and when field 2 is missing the run raises only
    after the declarations file has been created and the declaration of
    [var1] written, and that partial file stays. *)
Lemma no_fail_fast_counterexample :
  (run (main str_Z default_args) ds_ragged ∅).1 = Ok ()
  ∧ (run (main str_Z default_args) ds_missing ∅).1 = Raise (CaseError "prim.2")
  ∧ st_files (run (main str_Z default_args) ds_missing ∅).2 !! ic_decl_path
    = Some (unlines ["integer :: i_offset";
                     "real(kind(0d0)) :: var1(0:0) = [ &"; "5.0 &"; "]"]).
Proof. split_and!; vm_compute; reflexivity. Qed.

(** C9, an instance: destination id 4 (source id 3) of the end-to-end
    scenario. *)
Lemma extent_and_literals_witness :
  first_failure ds_scenario (seqZ 1 16) = None ∧ 1 ≤ 4 ≤ 16 ∧ 4 ≠ 3
  ∧ ∃ σ ds d,
      run (main str_Z default_args) ds_scenario ∅ = (Ok (), σ)
      ∧ st_files σ !! ic_decl_path = Some (render_decls ds)
      ∧ ds !! 3%nat = Some d
      ∧ d_nx d = len (field ds_scenario 4 0)
      ∧ d_literals d = str_Z <$> field ds_scenario 4 14694.
Proof.
  split_and!; [vm_compute; reflexivity|lia|lia|lia|].
  destruct (extent_and_literals str_Z default_args ds_scenario ∅ 4)
    as (σ & ds & d & Hrun & Hfile & Hd & _ & Hnx & Hlits & _);
    [vm_compute; reflexivity|lia|lia|].
  exists σ, ds, d. split_and!; [exact Hrun|exact Hfile|exact Hd|exact Hnx|exact Hlits].
Defined.

(** * Further properties of the generator *)

(** ** The ranges and the id translation *)

(** X1.  [incrange(a, b)] is the inclusive range: it holds exactly the
    integers from [a] to [b], in increasing order and without repetition; it
    is empty when [b < a]; and when [a ≤ b] it is [range(a, b)] followed by
    [b], which is why the declaration loop visits one id more than the
    assignment loop written with the same bound. *)
Theorem incrange_inclusive (a b : Z) :
  (∀ k, k ∈ incrange a b ↔ a ≤ k ≤ b)
  ∧ (∀ (i : nat) k, incrange a b !! i = Some k ↔ k = a + Z.of_nat i ∧ k ≤ b)
  ∧ NoDup (incrange a b)
  ∧ len (incrange a b) = Z.max 0 (b - a + 1)
  ∧ (b < a → incrange a b = [])
  ∧ (a ≤ b → incrange a b = range a b ++ [b]).
Proof.
  unfold incrange, range, len. split_and!.
  - intros k. rewrite elem_of_seqZ. lia.
  - intros i k. rewrite lookup_seqZ. lia.
  - apply NoDup_seqZ.
  - rewrite length_seqZ. lia.
  - intros. apply seqZ_nil. lia.
  - intros. replace (b + 1 - a) with (b - a + 1) by lia.
    rewrite seqZ_snoc by lia. do 2 f_equal. lia.
Qed.

(** X2.  The id translation is monotone, sends the destination ids
    [1..16] onto the source ids [1..15], and identifies exactly one pair of
    ids, 2 and 3: every other destination id has a source id of its own. *)
Theorem var_init_onto :
  (∀ v v', v ≤ v' → var_init v ≤ var_init v')
  ∧ (∀ v, 1 ≤ v ≤ num_eqns + num_dims - 1 → 1 ≤ var_init v ≤ num_eqns)
  ∧ (∀ k, 1 ≤ k ≤ num_eqns →
       ∃ v, 1 ≤ v ≤ num_eqns + num_dims - 1 ∧ var_init v = k)
  ∧ (∀ v v', v < v' → var_init v = var_init v' → v = 2 ∧ v' = 3)
  ∧ var_init 2 = var_init 3.
Proof.
  unfold var_init, num_eqns, num_dims. split_and!.
  - intros v v' ?. repeat case_bool_decide; lia.
  - intros v ?. case_bool_decide; lia.
  - intros k ?. destruct (decide (k < 3)).
    + exists k. rewrite bool_decide_true by done. lia.
    + exists (k + 1). rewrite bool_decide_false by lia. lia.
  - intros v v' ?. repeat case_bool_decide; lia.
  - done.
Qed.

(** ** Loops over literals *)

Section MoreLoops.
Context {Sample Case : Type} `{!CaseAPI Sample Case}.
Variable str : Sample → string.
Implicit Types (c : Case) (n : option Z) (fs : gmap string string) (cs : list Access).

(** X3.  The loop over [enumerate(elems)] writes one line per element, in
    order: the element as formatted, then a comma and the continuation
    marker, except on the last line, which has the marker without a comma.
    For an empty list it writes nothing; a single element is the last one
    and gets no comma. *)
Theorem element_separators f elems t c n fs cs :
  for_each (enumerate elems) (write_element f elems) (mkState c n (<[f := t]> fs) cs)
  = (Ok (), mkState c n
       (<[f := t +:+ unlines (literal_line_list (format <$> elems))]> fs) cs)
  ∧ length (literal_line_list (format <$> elems)) = length elems
  ∧ (∀ (i : nat) e, elems !! i = Some e →
       literal_line_list (format <$> elems) !! i
       = Some (format e +:+ (if decide (S i = length elems) then " &" else ", &")))
  ∧ (elems = [] → unlines (literal_line_list (format <$> elems)) = "")
  ∧ (∀ e, elems = [e] →
       unlines (literal_line_list (format <$> elems)) = format e +:+ " &" +:+ nl).
Proof.
  split_and!.
  - unfold enumerate. rewrite write_elements_run by lia.
    by rewrite literal_lines_unlines.
  - by rewrite length_literal_line_list, length_fmap.
  - intros i e Hi.
    rewrite (lookup_literal_line_list _ i (format e)) by (by rewrite list_lookup_fmap, Hi).
    by rewrite length_fmap.
  - by intros ->.
  - intros e ->. cbn [fmap list_fmap literal_line_list]. rewrite unlines_cons.
    change (unlines []) with "". by rewrite !append_assoc, append_nil_r.
Qed.

(** X4.  Empty arrays.  When the source field has no sample at either
    snapshot, the loop body still succeeds: it sets [nx] to 0 and writes a
    declaration of two lines, with the upper bound [-1] and no literal.
    This holds for the zero-filled id 3 as well. *)
Theorem declare_empty f v c c' n t fs cs :
  load_for c v = inr c' →
  lookup2 (get_data c') 0 (pretty (var_init v)) = inr [] →
  (v ≠ 3 → lookup2 (get_data c') 14694 (pretty (var_init v)) = inr []) →
  declare str f v (mkState c n (<[f := t]> fs) cs)
  = (Ok (), mkState c' (Some 0)
       (<[f := t +:+ unlines ["real(kind(0d0)) :: var" +:+ pretty v +:+ "(0:-1) = [ &"; "]"]]>
          fs)
       (cs ++ accesses v)).
Proof.
  intros Hload H0 H1.
  rewrite (declare_ok str f v c c' [] []) by done.
  do 4 f_equal. unfold render_decl. cbn [d_id d_nx d_literals].
  case_bool_decide; cbn [fmap list_fmap replicate Z.to_nat len length literal_lines];
    rewrite !unlines_cons; change (unlines []) with "";
    by rewrite !append_assoc, ?append_nil_r.
Qed.

End MoreLoops.

(** X4, an instance: the first iteration on the dataset whose arrays are all
    empty. *)
Lemma declare_empty_witness :
  load_for ds_empty 1 = inr (case_at ds_empty 1)
  ∧ lookup2 (get_data (case_at ds_empty 1)) 0 (pretty (var_init 1)) = inr []
  ∧ (1 ≠ 3 → lookup2 (get_data (case_at ds_empty 1)) 14694 (pretty (var_init 1)) = inr [])
  ∧ declare str_Z "f" 1 (mkState ds_empty None (<["f" := "x"]> ∅) [])
    = (Ok (), mkState (case_at ds_empty 1) (Some 0)
         (<["f" := "x" +:+ unlines ["real(kind(0d0)) :: var" +:+ pretty 1 +:+ "(0:-1) = [ &";
                                    "]"]]> ∅)
         ([] ++ accesses 1)).
Proof.
  split_and!; [vm_compute; reflexivity..|].
  apply (declare_empty str_Z "f" 1 ds_empty (case_at ds_empty 1) None "x" ∅ []);
    [vm_compute; reflexivity..|intros _; vm_compute; reflexivity].
Defined.

(** ** Failing runs *)

Section Failures.
Context {Sample Case : Type} `{!CaseAPI Sample Case}.
Variable str : Sample → string.
Implicit Types (c : Case) (n : option Z) (fs : gmap string string) (cs : list Access)
  (args : Namespace) (tree : string → option OpenError).

(** The script in any directory tree: an [open] that fails ends the run
    there, and where both succeed the run is the one of [main]. *)
Lemma main_in_decl_blocked tree args c fs kind :
  tree ic_decl_path = Some kind →
  run (main_in str tree args) c fs = (Raise (OSError kind ic_decl_path), initial c fs).
Proof.
  intros Htree. unfold run, main_in, with_open_in, open_w_in. by rewrite Htree.
Qed.

Lemma with_open_in_opened tree path (body : string → M Case unit) :
  tree path = None → with_open_in tree path body = with_open path body.
Proof. intros Htree. unfold with_open_in, with_open, open_w_in. by rewrite Htree. Qed.

Lemma main_in_decl_opened tree args c fs :
  tree ic_decl_path = None →
  run (main_in str tree args) c fs
  = (decl_pass str;; with_open_in tree ic_def_path def_body) (initial c fs).
Proof.
  intros Htree. unfold run, main_in. by rewrite (with_open_in_opened tree ic_decl_path).
Qed.

Lemma main_in_fail tree args c fs v e :
  tree ic_decl_path = None →
  first_failure c (seqZ 1 16) = Some (v, e) →
  ∃ σ', run (main_in str tree args) c fs = (Raise e, σ')
      ∧ st_files σ' = <[ic_decl_path := render_decls (decl_of str c <$> seqZ 1 (v - 1))]> fs.
Proof.
  intros Htree Hfail. rewrite main_in_decl_opened by done.
  destruct (decl_pass_fail str c fs v e Hfail) as (σ' & Hrun & Hfs).
  exists σ'. split; [|done]. by erewrite bind_raise.
Qed.

Lemma main_in_def_blocked tree args c fs kind :
  tree ic_decl_path = None →
  tree ic_def_path = Some kind →
  first_failure c (seqZ 1 16) = None →
  run (main_in str tree args) c fs
  = (Raise (OSError kind ic_def_path),
     mkState (case_at c 16) (Some (nx_at c 16))
       (<[ic_decl_path := render_decls (decl_of str c <$> seqZ 1 16)]> fs)
       (concat (accesses <$> seqZ 1 16))).
Proof.
  intros Hdecl Hdef Hok. rewrite main_in_decl_opened by done.
  erewrite bind_ok; last by apply decl_pass_ok.
  unfold with_open_in, open_w_in. by rewrite Hdef.
Qed.

Lemma main_in_writable tree args c fs :
  tree ic_decl_path = None →
  tree ic_def_path = None →
  run (main_in str tree args) c fs = run (main str args) c fs.
Proof.
  intros Hdecl Hdef. rewrite main_in_decl_opened by done.
  by rewrite (with_open_in_opened tree ic_def_path).
Qed.

(** The ways the loop body can raise. *)
Lemma failure_in_cases c v e :
  failure_in c v = Some e →
  load_for c v = inl e
  ∨ ∃ c', load_for c v = inr c'
      ∧ (∃ step, (step = 0 ∨ step = 14694 ∧ v ≠ 3)
           ∧ (e = KeyError (KInt step) ∧ get_data c' !! step = None
              ∨ e = KeyError (KStr (pretty (var_init v)))
                ∧ ∃ snapshot, get_data c' !! step = Some snapshot
                    ∧ snapshot !! pretty (var_init v) = None)).
Proof.
  unfold failure_in, lookup2. intros Hf.
  destruct (load_for c v) as [e'|c']; [left; congruence|].
  right. exists c'. split; [done|].
  destruct (get_data c' !! 0) as [s0|] eqn:H0; last first.
  { exists 0. simplify_eq. auto. }
  destruct (s0 !! pretty (var_init v)) eqn:H0'; last first.
  { exists 0. simplify_eq. split; [auto|]. right. eauto. }
  case_bool_decide; [|done]. exists 14694.
  destruct (get_data c' !! 14694) as [s1|] eqn:H1; last first.
  { simplify_eq. auto. }
  destruct (s1 !! pretty (var_init v)) eqn:H1'; [done|].
  simplify_eq. split; [auto|]. right. eauto.
Qed.

(** X5.  What a run can raise.  Whenever a run raises, the exception is
    one of three kinds.  It is the [OSError] of the first [open], before
    any access to the dataset and with nothing written.  Or it comes from
    some iteration [v] in [1..16] of the first loop, the first that the
    dataset cannot serve: it is then the exception [load_variable] raised
    for that iteration's field, or the [KeyError] of a subscript, whose key
    is the step (0, or 14694 when [v ≠ 3]) if the snapshot is missing and
    the source id as a string if the snapshot lacks the field.  Or, after
    sixteen iterations that all succeeded, it is the [OSError] of the
    second [open].  In particular [nx] is never read unbound.  (A write to
    a file that has been opened is taken to succeed.) *)
Theorem failure_kinds tree args c fs e σ :
  run (main_in str tree args) c fs = (Raise e, σ) →
  (∃ kind, tree ic_decl_path = Some kind
      ∧ e = OSError kind ic_decl_path ∧ σ = initial c fs)
  ∨ (tree ic_decl_path = None
     ∧ ∃ v, 1 ≤ v ≤ 16
         ∧ (∀ u, 1 ≤ u < v → failure_at c u = None)
         ∧ (load_for (case_at c (v - 1)) v = inl e
            ∨ ∃ c', load_for (case_at c (v - 1)) v = inr c'
                ∧ (∃ step, (step = 0 ∨ step = 14694 ∧ v ≠ 3)
                     ∧ (e = KeyError (KInt step) ∧ get_data c' !! step = None
                        ∨ e = KeyError (KStr (pretty (var_init v)))
                          ∧ ∃ snapshot, get_data c' !! step = Some snapshot
                              ∧ snapshot !! pretty (var_init v) = None))))
  ∨ (tree ic_decl_path = None
     ∧ first_failure c (seqZ 1 16) = None
     ∧ ∃ kind, tree ic_def_path = Some kind ∧ e = OSError kind ic_def_path).
Proof.
  intros Hrun.
  destruct (tree ic_decl_path) as [kind|] eqn:Hdecl.
  { left. exists kind. rewrite (main_in_decl_blocked tree args c fs kind Hdecl) in Hrun.
    by simplify_eq. }
  right. destruct (first_failure c (seqZ 1 16)) as [[v e']|] eqn:Hff.
  - left. split; [done|].
    destruct (main_in_fail tree args c fs v e' Hdecl Hff) as (σ' & Hrun' & _).
    assert (e' = e) as -> by congruence.
    destruct (first_failure_Some c 1 16 v e Hff) as (Hv & Hfail & Hbefore).
    exists v. split_and!; [lia..|done|].
    by apply failure_in_cases.
  - right. split_and!; [done..|].
    destruct (tree ic_def_path) as [kind|] eqn:Hdef.
    + exists kind. split; [done|].
      rewrite (main_in_def_blocked tree args c fs kind Hdecl Hdef Hff) in Hrun.
      by simplify_eq.
    + rewrite main_in_writable, (main_ok str args c fs Hff) in Hrun by done. done.
Qed.

Lemma declare_fail_calls f v c e n t fs cs :
  failure_in c v = Some e →
  ∃ σ' l, declare str f v (mkState c n (<[f := t]> fs) cs) = (Raise e, σ')
        ∧ st_files σ' = <[f := t]> fs
        ∧ st_calls σ' = cs ++ l ∧ l `prefix_of` accesses v ∧ l ≠ [].
Proof.
  unfold failure_in, declare, load_for, accesses. cbv zeta. intros Hfail.
  destruct (load_variable _ _ c) as [e'|c'] eqn:Hload.
  { simplify_eq. eexists _, [_]. split.
    { erewrite bind_raise; [done|]. by rewrite case_load_variable_run, Hload. }
    split_and!; [done..| |done]. by eexists (_ :: _). }
  erewrite bind_ok; last by rewrite case_load_variable_run, Hload.
  destruct (lookup2 (get_data c') 0 _) as [e'|d0] eqn:H0.
  { simplify_eq. eexists _, [_; _]. split.
    { erewrite bind_raise; [done|]. by rewrite case_data_run, H0. }
    split_and!; [done| | |done].
    - cbn [st_calls]. by rewrite <-(assoc_L (++)).
    - by eexists. }
  erewrite bind_ok; last by rewrite case_data_run, H0.
  erewrite bind_ok; last by apply set_nx_run.
  case_bool_decide; [|done].
  destruct (lookup2 (get_data c') 14694 _) as [e'|d] eqn:H1; [|done].
  simplify_eq. eexists _, [_; _; _]. split.
  { erewrite bind_raise; [done|].
    erewrite bind_raise; [done|]. by rewrite case_data_run, H1. }
  split_and!; [done| | |done].
  - cbn [st_calls]. by rewrite <-!(assoc_L (++)).
  - by exists [].
Qed.

Lemma declare_loop_fail_calls f c0 (k : nat) a n t fs cs v e :
  1 ≤ a →
  first_failure c0 (seqZ a (Z.of_nat k)) = Some (v, e) →
  ∃ σ' l, for_each (seqZ a (Z.of_nat k)) (declare str f)
            (mkState (case_at c0 (a - 1)) n (<[f := t]> fs) cs) = (Raise e, σ')
      ∧ st_calls σ' = cs ++ concat (accesses <$> seqZ a (v - a)) ++ l
      ∧ l `prefix_of` accesses v ∧ l ≠ [].
Proof.
  revert a n t cs. induction k as [|k IH]; intros a n t cs Ha Hfail; [done|].
  rewrite seqZ_cons in * by lia.
  replace (Z.pred (Z.of_nat (S k))) with (Z.of_nat k) in * by lia.
  simpl in Hfail. cbn [for_each].
  destruct (failure_at c0 a) as [e'|] eqn:Hfa.
  - simplify_eq.
    destruct (declare_fail_calls f v _ e n t fs cs Hfa) as (σ' & l & Hrun & _ & Hcs & Hl & Hne).
    exists σ', l. split_and!; [by erewrite bind_raise| |done|done].
    by rewrite Hcs, Z.sub_diag.
  - pose proof (first_failure_Some _ _ _ _ _ Hfail) as (Hrange & _ & _).
    erewrite bind_ok; last by apply declare_at.
    replace (case_at c0 a) with (case_at c0 (Z.succ a - 1)) by (f_equal; lia).
    destruct (IH (Z.succ a) (Some (nx_at c0 a)) (t +:+ render_decl (decl_of str c0 a))
                (cs ++ accesses a)) as (σ' & l & Hrun & Hcs & Hl & Hne); [lia|done|].
    exists σ', l. split_and!; [done| |done|done].
    rewrite Hcs, (seqZ_cons a (v - a)) by lia.
    replace (Z.pred (v - a)) with (v - Z.succ a) by lia.
    cbn [fmap list_fmap concat]. by rewrite <-!(assoc_L (++)).
Qed.

(** X6.  A failing run stops at the failing access.  When iteration [v] is
    the first that cannot be served, the dataset has been accessed for the
    ids before [v] exactly as in a complete run, then by a non-empty initial
    part of the accesses of [v], and by nothing after: the access log is a
    prefix of the log of a complete run. *)
Theorem no_access_after_failure args c fs v e :
  first_failure c (seqZ 1 16) = Some (v, e) →
  ∃ σ l, run (main str args) c fs = (Raise e, σ)
    ∧ st_calls σ = concat (accesses <$> seqZ 1 (v - 1)) ++ l
    ∧ l `prefix_of` accesses v ∧ l ≠ []
    ∧ st_calls σ `prefix_of` concat (accesses <$> seqZ 1 16).
Proof.
  intros Hfail.
  destruct (first_failure_Some c 1 16 v e Hfail) as (Hv & _ & _).
  destruct (declare_loop_fail_calls ic_decl_path c 16 1 None
              ("" +:+ "integer :: i_offset" +:+ nl) fs [] v e)
    as (σ & l & Hrun & Hcs & Hl & Hne); [done..|].
  exists σ, l. split_and!; [|done..|].
  - unfold run, main, decl_pass, with_open, decl_body, initial.
    erewrite bind_raise; [done|].
    erewrite bind_ok; last by apply open_w_run.
    erewrite bind_ok; last by apply write_run.
    exact Hrun.
  - rewrite Hcs. cbn [app].
    assert (seqZ 1 16 = seqZ 1 (v - 1) ++ v :: seqZ (v + 1) (16 - v)) as ->.
    { assert (16 = (v - 1) + (16 - (v - 1))) as Hsplit by lia.
      rewrite Hsplit at 1. rewrite seqZ_app, (seqZ_cons (1 + (v - 1))) by lia.
      repeat f_equal; lia. }
    rewrite fmap_app, concat_app. apply prefix_app.
    cbn [fmap list_fmap concat]. by apply prefix_app_r.
Qed.

(** X7.  A dataset that stops before step 14694.  If the first field loads
    and is present at snapshot 0 but the dataset has no snapshot 14694, the
    run raises [KeyError(14694)] in its first iteration: the declarations
    file is left with its header line only, and no other file is touched. *)
Theorem snapshot_missing args c fs c' d0 :
  load_for c 1 = inr c' →
  lookup2 (get_data c') 0 "1" = inr d0 →
  get_data c' !! 14694 = None →
  ∃ σ, run (main str args) c fs = (Raise (KeyError (KInt 14694)), σ)
    ∧ st_files σ !! ic_decl_path = Some ("integer :: i_offset" +:+ nl)
    ∧ (∀ p, p ≠ ic_decl_path → st_files σ !! p = fs !! p).
Proof.
  intros Hload H0 H1.
  assert (first_failure c (seqZ 1 16) = Some (1, KeyError (KInt 14694))) as Hff.
  { rewrite seqZ_cons by lia. cbn [first_failure].
    unfold failure_at. change (case_at c (1 - 1)) with c.
    unfold failure_in. rewrite Hload. change (pretty (var_init 1)) with "1".
    rewrite H0. rewrite bool_decide_true by done.
    unfold lookup2. by rewrite H1. }
  destruct (main_fail str args c fs _ _ Hff) as (σ & Hrun & Hfs).
  exists σ. rewrite Hfs. split_and!; [done| |].
  - by rewrite lookup_insert_eq.
  - intros p Hp. by rewrite lookup_insert_ne.
Qed.

(** X8.  The script writes its two artifacts and nothing else.  Whatever
    the outcome, every other path of the file system keeps its content (or
    its absence).  If the declarations file cannot be opened, the run ends
    there and the file system is as it was; if it can, the file exists
    afterwards, even after a failure.  The branch file exists after a run
    that finishes and is left as it was by a run that raises. *)
Theorem only_artifacts_written tree args c fs :
  (∀ p, p ≠ ic_decl_path → p ≠ ic_def_path →
     st_files (run (main_in str tree args) c fs).2 !! p = fs !! p)
  ∧ (∀ kind, tree ic_decl_path = Some kind →
       run (main_in str tree args) c fs
       = (Raise (OSError kind ic_decl_path), initial c fs))
  ∧ (tree ic_decl_path = None →
       is_Some (st_files (run (main_in str tree args) c fs).2 !! ic_decl_path))
  ∧ ((run (main_in str tree args) c fs).1 = Ok () →
       is_Some (st_files (run (main_in str tree args) c fs).2 !! ic_def_path))
  ∧ ((run (main_in str tree args) c fs).1 ≠ Ok () →
       st_files (run (main_in str tree args) c fs).2 !! ic_def_path = fs !! ic_def_path).
Proof.
  destruct (tree ic_decl_path) as [kind|] eqn:Hdecl.
  { rewrite (main_in_decl_blocked tree args c fs kind Hdecl). cbn [fst snd initial st_files].
    split_and!; try done. by intros ? [= <-]. }
  destruct (first_failure c (seqZ 1 16)) as [[v e]|] eqn:Hff.
  { destruct (main_in_fail tree args c fs v e Hdecl Hff) as (σ & Hrun & Hfs).
    rewrite Hrun. cbn [fst snd]. rewrite Hfs. split_and!.
    - intros p Hp _. by rewrite lookup_insert_ne.
    - done.
    - by rewrite lookup_insert_eq.
    - done.
    - intros _. by rewrite lookup_insert_ne. }
  destruct (tree ic_def_path) as [kind|] eqn:Hdef.
  - rewrite (main_in_def_blocked tree args c fs kind Hdecl Hdef Hff).
    cbn [fst snd st_files]. split_and!.
    + intros p Hp _. by rewrite lookup_insert_ne.
    + done.
    + by rewrite lookup_insert_eq.
    + done.
    + intros _. by rewrite lookup_insert_ne.
  - rewrite main_in_writable, (main_ok str args c fs Hff) by done.
    cbn [fst snd st_files]. split_and!.
    + intros p Hp1 Hp2. by rewrite !lookup_insert_ne.
    + done.
    + by rewrite lookup_decl_artifact.
    + by rewrite lookup_def_artifact.
    + done.
Qed.

End Failures.

(** X5, an instance: field 2 is not stored, so in a tree where both files
    can be opened the second iteration fails in [load_variable]. *)
Lemma failure_kinds_witness :
  run (main_in str_Z writable_tree default_args) ds_missing ∅
  = (Raise (CaseError "prim.2"),
     (run (main_in str_Z writable_tree default_args) ds_missing ∅).2)
  ∧ ∃ v, 1 ≤ v ≤ 16 ∧ (∀ u, 1 ≤ u < v → failure_at ds_missing u = None).
Proof.
  split; [vm_compute; reflexivity|].
  destruct (failure_kinds str_Z writable_tree default_args ds_missing ∅
              (CaseError "prim.2")
              (run (main_in str_Z writable_tree default_args) ds_missing ∅).2)
    as [(kind & Hkind & _)|[(_ & v & Hv & Hbefore & _)|(_ & Hnone & _)]];
    [vm_compute; reflexivity|discriminate Hkind| |vm_compute in Hnone; discriminate Hnone].
  exists v. split; [exact Hv|exact Hbefore].
Defined.

(** The same script where the directory of the artifacts is missing: the
    first [open] raises, and nothing is read or written. *)
Example open_fails_first :
  run (main_in str_Z no_directory default_args) ds_scenario ∅
  = (Raise (OSError FileNotFoundError ic_decl_path), initial ds_scenario ∅).
Proof. vm_compute. reflexivity. Qed.

(** X6, an instance: with field 2 missing, the log ends with the load that
    failed. *)
Lemma no_access_after_failure_witness :
  first_failure ds_missing (seqZ 1 16) = Some (2, CaseError "prim.2")
  ∧ ∃ σ l, run (main str_Z default_args) ds_missing ∅ = (Raise (CaseError "prim.2"), σ)
      ∧ st_calls σ = concat (accesses <$> seqZ 1 (2 - 1)) ++ l
      ∧ l `prefix_of` accesses 2.
Proof.
  split; [vm_compute; reflexivity|].
  destruct (no_access_after_failure str_Z default_args ds_missing ∅ 2 (CaseError "prim.2"))
    as (σ & l & Hrun & Hcs & Hl & _); [vm_compute; reflexivity|].
  exists σ, l. split_and!; [exact Hrun|exact Hcs|exact Hl].
Defined.

(** X7, an instance: the dataset with snapshot 0 only. *)
Lemma snapshot_missing_witness :
  load_for ds_short 1 = inr (case_at ds_short 1)
  ∧ lookup2 (get_data (case_at ds_short 1)) 0 "1" = inr [5]
  ∧ get_data (case_at ds_short 1) !! 14694 = None
  ∧ ∃ σ, run (main str_Z default_args) ds_short ∅ = (Raise (KeyError (KInt 14694)), σ)
      ∧ st_files σ !! ic_decl_path = Some ("integer :: i_offset" +:+ nl).
Proof.
  split_and!; [vm_compute; reflexivity..|].
  destruct (snapshot_missing str_Z default_args ds_short ∅ (case_at ds_short 1) [5])
    as (σ & Hrun & Hfile & _); [vm_compute; reflexivity..|].
  exists σ. split; [exact Hrun|exact Hfile].
Defined.

(** ** The declarations file, line by line *)

Lemma render_decls_unlines (ds : list Decl) :
  render_decls ds = unlines ("integer :: i_offset" :: concat (decl_lines <$> ds)).
Proof.
  unfold render_decls. rewrite unlines_cons. do 2 f_equal.
  induction ds as [|d ds IH]; [done|].
  cbn [fmap list_fmap concat concat_strings foldr].
  change (foldr String.append "" (render_decl <$> ds))
    with (concat_strings (render_decl <$> ds)).
  by rewrite unlines_app, IH, render_decl_unlines.
Qed.

Lemma decl_head_no_newline (d : Decl) : all_chars not_newline (decl_head d) = true.
Proof.
  unfold decl_head.
  rewrite !all_chars_app, !(numeral_not_newline _ (pretty_Z_numeral _)). done.
Qed.

Lemma literal_line_list_no_newline (lits : list string) :
  Forall (λ l, all_chars not_newline l = true) lits →
  Forall (λ l, all_chars not_newline l = true) (literal_line_list lits).
Proof.
  induction lits as [|x [|y lits] IH]; intros Hall; [done| |].
  - apply Forall_cons_1 in Hall as [Hx _]. apply Forall_cons_2; [|done].
    by rewrite all_chars_app, Hx.
  - apply Forall_cons_1 in Hall as [Hx Hrest].
    change (literal_line_list (x :: y :: lits))
      with ((x +:+ ", &") :: literal_line_list (y :: lits)).
    apply Forall_cons_2; [by rewrite all_chars_app, Hx|]. by apply IH.
Qed.

Lemma decl_head_inj (d d' : Decl) :
  decl_head d = decl_head d' → d_id d = d_id d' ∧ d_nx d = d_nx d'.
Proof.
  unfold decl_head. intros Heq%(inj (String.append _)).
  apply (append_stop_inj is_numeral) in Heq as [Hid Heq];
    [|apply pretty_Z_numeral..|done].
  apply (inj (String.append "0:")) in Heq.
  apply (append_stop_inj is_numeral) in Heq as [Hnx _];
    [|apply pretty_Z_numeral..|done].
  apply (inj pretty) in Hid, Hnx. split; [done|lia].
Qed.

Lemma length_concat_decl_lines (ds : list Decl) :
  length (concat (decl_lines <$> ds))
  = (2 * length ds + sum_list (length ∘ d_literals <$> ds))%nat.
Proof.
  induction ds as [|d ds IH]; [done|].
  cbn [fmap list_fmap concat sum_list length compose].
  rewrite length_app, IH. unfold decl_lines. cbn [length].
  rewrite length_app, length_literal_line_list. simpl. lia.
Qed.

Lemma str_Z_no_newline (z : Z) : all_chars not_newline (str_Z z) = true.
Proof.
  unfold str_Z. by rewrite all_chars_app, (numeral_not_newline _ (pretty_Z_numeral _)).
Qed.

Section DeclarationLines.
Context {Sample Case : Type} `{!CaseAPI Sample Case}.
Variable str : Sample → string.
Implicit Types (c : Case) (fs : gmap string string) (args : Namespace).

(** X9.  Provided [str] never prints a newline, the declarations file of a
    complete run reads back, line by line, as the header followed by the
    lines of the 16 declarations in order: for each one its first line, one
    line per literal, and the closing bracket.  So the file has 33 lines
    plus one per literal, and the first line of a declaration determines
    its id and its declared extent: no two ids share an array name. *)
Theorem declarations_lines args c fs :
  (∀ x, all_chars not_newline (str x) = true) →
  first_failure c (seqZ 1 16) = None →
  ∃ σ content,
    run (main str args) c fs = (Ok (), σ)
    ∧ st_files σ !! ic_decl_path = Some content
    ∧ split_lines content
      = "integer :: i_offset" :: concat (decl_lines <$> (decl_of str c <$> seqZ 1 16))
    ∧ length (split_lines content)
      = (33 + sum_list (length ∘ d_literals <$> (decl_of str c <$> seqZ 1 16)))%nat
    ∧ (∀ d d', decl_head d = decl_head d' → d_id d = d_id d' ∧ d_nx d = d_nx d').
Proof.
  intros Hstr Hok. eexists _, _. split; [by apply main_ok|].
  cbn [st_files]. rewrite lookup_decl_artifact. split; [done|].
  assert (split_lines (render_decls (decl_of str c <$> seqZ 1 16))
          = "integer :: i_offset" :: concat (decl_lines <$> (decl_of str c <$> seqZ 1 16)))
    as Hlines.
  { rewrite render_decls_unlines. apply split_unlines.
    apply Forall_cons_2; [done|].
    apply Forall_concat, Forall_fmap, Forall_fmap, Forall_forall.
    intros v _. unfold compose, decl_lines.
    apply Forall_cons_2; [apply decl_head_no_newline|].
    apply Forall_app_2; [|by apply Forall_cons_2].
    apply literal_line_list_no_newline. unfold decl_of. cbn [d_literals].
    case_bool_decide.
    - apply Forall_replicate. done.
    - apply Forall_fmap, Forall_forall. intros x _. apply Hstr. }
  split_and!; [done| |apply decl_head_inj].
  rewrite Hlines. cbn [length]. rewrite length_concat_decl_lines.
  by rewrite !length_fmap, length_seqZ.
Qed.

End DeclarationLines.

(** X9, an instance: the end-to-end scenario, 33 + 16 * 3 lines. *)
Lemma declarations_lines_witness :
  (∀ x, all_chars not_newline (str_Z x) = true)
  ∧ first_failure ds_scenario (seqZ 1 16) = None
  ∧ ∃ σ content,
      run (main str_Z default_args) ds_scenario ∅ = (Ok (), σ)
      ∧ st_files σ !! ic_decl_path = Some content
      ∧ length (split_lines content) = 81%nat.
Proof.
  split_and!; [apply str_Z_no_newline|vm_compute; reflexivity|].
  destruct (declarations_lines str_Z default_args ds_scenario ∅)
    as (σ & content & Hrun & Hfile & _ & Hlen & _);
    [apply str_Z_no_newline|vm_compute; reflexivity|].
  exists σ, content. split_and!; [exact Hrun|exact Hfile|].
  rewrite Hlen. vm_compute. reflexivity.
Defined.

(** * The case file *)

Module CasePyFacts.
Import CasePy.

(** ** The keys of the chemistry loop *)

Lemma starts_with_append (p s : string) : starts_with p (p +:+ s) = true.
Proof.
  induction p as [|a p IH]; [done|].
  rewrite append_cons. simpl. by rewrite Ascii.eqb_refl, IH.
Qed.

Lemma species_key_is_species (stem : string) (i : Z) :
  stem ∈ species_stems → is_species_key (species_key stem i) = true.
Proof.
  intros Hstem. unfold is_species_key. apply existsb_exists.
  exists stem. split; [by apply list_elem_of_In|apply starts_with_append].
Qed.

Lemma species_key_same_stem (stem : string) (i j : Z) :
  species_key stem i = species_key stem j → i = j.
Proof.
  unfold species_key. intros Heq%(inj (String.append _)).
  apply (append_stop_inj is_numeral) in Heq as [Heq _];
    [|apply pretty_Z_numeral..|done].
  apply (inj pretty) in Heq. lia.
Qed.

Lemma species_key_inj (stem stem' : string) (i j : Z) :
  stem ∈ species_stems → stem' ∈ species_stems →
  species_key stem i = species_key stem' j → stem = stem' ∧ i = j.
Proof.
  unfold species_stems. rewrite !elem_of_cons, !elem_of_nil.
  intros [->|[->|[->|[]]]] [->|[->|[->|[]]]] Heq;
    first [ split; [done|exact (species_key_same_stem _ _ _ Heq)]
          | exfalso; unfold species_key in Heq; by simplify_eq/= ].
Qed.

(** ** The chemistry loop *)

#[local] Ltac stem := unfold species_stems; by repeat constructor.

Lemma species_key_ne (stem stem' : string) (i j : Z) :
  stem ∈ species_stems → stem' ∈ species_stems →
  stem ≠ stem' ∨ i ≠ j → species_key stem i ≠ species_key stem' j.
Proof. intros ?? Hne Heq. apply species_key_inj in Heq as [? ?]; [|done..]. by destruct Hne. Qed.

Lemma species_key_plain (stem k : string) (i : Z) :
  stem ∈ species_stems → is_species_key k = false → species_key stem i ≠ k.
Proof. intros Hstem Hk <-. by rewrite species_key_is_species in Hk. Qed.

Lemma add_species_other (case : gmap string Value) (i : Z) (y : float) (k : string) :
  is_species_key k = false → add_species case (i, y) !! k = case !! k.
Proof.
  intros Hk. unfold add_species.
  by rewrite !lookup_insert_ne by (apply species_key_plain; [stem|done]).
Qed.

Lemma species_loop_other (case : gmap string Value) (ys : list float) (i0 : Z) (k : string) :
  is_species_key k = false →
  foldl add_species case (enumerate_from i0 ys) !! k = case !! k.
Proof.
  intros Hk. revert case i0. induction ys as [|y ys IH]; intros case i0; [done|].
  cbn [enumerate_from foldl]. by rewrite IH, add_species_other.
Qed.

Lemma add_species_other_index (case : gmap string Value) (i j : Z) (y : float)
    (stem : string) :
  stem ∈ species_stems → i ≠ j →
  add_species case (i, y) !! species_key stem j = case !! species_key stem j.
Proof.
  intros Hstem Hij. unfold add_species.
  by rewrite !lookup_insert_ne by (apply species_key_ne; [stem|done|by right]).
Qed.

Lemma species_loop_before (case : gmap string Value) (ys : list float) (i0 j : Z)
    (stem : string) :
  stem ∈ species_stems → j < i0 →
  foldl add_species case (enumerate_from i0 ys) !! species_key stem j
  = case !! species_key stem j.
Proof.
  intros Hstem. revert case i0. induction ys as [|y ys IH]; intros case i0 Hj; [done|].
  cbn [enumerate_from foldl]. rewrite IH by lia.
  apply add_species_other_index; [done|lia].
Qed.

Lemma add_species_lookup (case : gmap string Value) (i : Z) (y : float) (stem : string) :
  stem ∈ species_stems →
  add_species case (i, y) !! species_key stem i = Some (species_value stem y).
Proof.
  unfold species_stems, add_species, species_value.
  rewrite !elem_of_cons, elem_of_nil. intros [->|[->|[->|[]]]].
  - rewrite (lookup_insert_ne _ (species_key "patch_icpp(2)%Y(" i))
      by (apply species_key_ne; [stem..|by left]).
    rewrite (lookup_insert_ne _ (species_key "patch_icpp(1)%Y(" i))
      by (apply species_key_ne; [stem..|by left]).
    by rewrite lookup_insert_eq.
  - rewrite (lookup_insert_ne _ (species_key "patch_icpp(2)%Y(" i))
      by (apply species_key_ne; [stem..|by left]).
    by rewrite lookup_insert_eq.
  - by rewrite lookup_insert_eq.
Qed.

Lemma species_loop_lookup (case : gmap string Value) (ys : list float) (i0 : Z) (i : nat)
    (y : float) (stem : string) :
  stem ∈ species_stems → ys !! i = Some y →
  foldl add_species case (enumerate_from i0 ys) !! species_key stem (i0 + Z.of_nat i)
  = Some (species_value stem y).
Proof.
  intros Hstem. revert case i0 i. induction ys as [|y0 ys IH]; intros case i0 i Hi; [done|].
  cbn [enumerate_from foldl]. destruct i as [|i].
  - simplify_eq/=. rewrite Z.add_0_r, species_loop_before by (done || lia).
    by apply add_species_lookup.
  - replace (i0 + Z.of_nat (S i)) with (i0 + 1 + Z.of_nat i) by lia. by apply IH.
Qed.

Lemma add_species_size (case : gmap string Value) (i : Z) (y : float) :
  (∀ stem, stem ∈ species_stems → case !! species_key stem i = None) →
  stdpp.base.size (add_species case (i, y)) = (stdpp.base.size case + 3)%nat.
Proof.
  intros Hfresh. unfold add_species.
  rewrite !map_size_insert_None.
  - lia.
  - apply Hfresh. stem.
  - rewrite lookup_insert_ne by (apply species_key_ne; [stem..|by left]).
    apply Hfresh. stem.
  - rewrite !lookup_insert_ne by (apply species_key_ne; [stem..|by left]).
    apply Hfresh. stem.
Qed.

Lemma species_loop_size (case : gmap string Value) (ys : list float) (i0 : Z) :
  (∀ stem j, stem ∈ species_stems → i0 ≤ j → case !! species_key stem j = None) →
  stdpp.base.size (foldl add_species case (enumerate_from i0 ys))
  = (stdpp.base.size case + 3 * length ys)%nat.
Proof.
  revert case i0. induction ys as [|y ys IH]; intros case i0 Hfresh.
  - simpl. lia.
  - cbn [enumerate_from foldl length]. rewrite IH.
    + rewrite add_species_size; [lia|]. intros stem ?. apply Hfresh; [done|lia].
    + intros stem j Hstem Hj. rewrite add_species_other_index by (done || lia).
      apply Hfresh; [done|lia].
Qed.

(** ** The dict display *)

Lemma dict_literal_lookup_Some (es : list (string * Value)) (k : string) (v : Value) :
  dict_literal es !! k = Some v → k ∈ es.*1.
Proof.
  unfold dict_literal.
  assert (∀ d : gmap string Value,
            foldl (λ d kv, <[kv.1 := kv.2]> d) d es !! k = Some v →
            d !! k = Some v ∨ k ∈ es.*1) as Hgen.
  { induction es as [|[k0 v0] es IH]; intros d Hd; [by left|].
    cbn [foldl] in Hd. apply IH in Hd as [Hd|Hd].
    - destruct (decide (k0 = k)) as [->|Hne].
      + right. cbn. left.
      + left. by rewrite lookup_insert_ne in Hd.
    - right. cbn. by right. }
  intros Hd. by apply Hgen in Hd as [Hd|Hd].
Qed.

Lemma entries_keys_plain args sol_R Nx Ny NT NS dt pio :
  forallb (λ k, negb (is_species_key k)) (entries args sol_R Nx Ny NT NS dt pio).*1 = true.
Proof. vm_compute. reflexivity. Qed.

Lemma base_no_species args sol_R Nx Ny NT NS dt pio (k : string) :
  is_species_key k = true →
  dict_literal (entries args sol_R Nx Ny NT NS dt pio) !! k = None.
Proof.
  intros Hk. apply eq_None_not_Some. intros [v Hv].
  apply dict_literal_lookup_Some, list_elem_of_In in Hv.
  pose proof (entries_keys_plain args sol_R Nx Ny NT NS dt pio) as Hplain.
  rewrite forallb_forall in Hplain. apply Hplain in Hv. by rewrite Hk in Hv.
Qed.

Lemma base_size args sol_R Nx Ny NT NS dt pio :
  stdpp.base.size (dict_literal (entries args sol_R Nx Ny NT NS dt pio)) = 68%nat.
Proof. vm_compute. reflexivity. Qed.

(** ** The steps of the script *)

Lemma script_inr args sol_L sol_R case :
  script args sol_L sol_R = inr case →
  ∃ Nx Ny dx dy q NT pio,
    py_int (PrimFloat.mul (literal (2 * 400)) (scale args)) = inr Nx
    ∧ py_int (PrimFloat.mul (literal 200) (scale args)) = inr Ny
    ∧ float_div_int (PrimFloat.mul (literal 2) L) Nx = inr dx
    ∧ float_div_int (PrimFloat.div L (literal 2)) Ny = inr dy
    ∧ float_div (py_min dx dy) (PrimFloat.abs u_r) = inr q
    ∧ (r ← float_div Tend (PrimFloat.mul (PrimFloat.mul (PrimFloat.mul q 0.05) 0.1) 0.2);
       py_int r) = inr NT
    ∧ parallel_io args = inr pio
    ∧ case = (if chemistry args
              then foldl add_species
                     (dict_literal (entries args sol_R Nx Ny NT (NT `div` SAVE_COUNT)
                        (PrimFloat.mul (PrimFloat.mul (PrimFloat.mul q 0.05) 0.1) 0.2) pio))
                     (enumerate (Y sol_L))
              else dict_literal (entries args sol_R Nx Ny NT (NT `div` SAVE_COUNT)
                     (PrimFloat.mul (PrimFloat.mul (PrimFloat.mul q 0.05) 0.1) 0.2) pio)).
Proof.
  unfold script. intros Hs.
  destruct (py_int (PrimFloat.mul (literal (2 * 400)) (scale args))) as [|Nx] eqn:HNx;
    [done|].
  destruct (py_int (PrimFloat.mul (literal 200) (scale args))) as [|Ny] eqn:HNy; [done|].
  cbn [mbind exc_bind] in Hs.
  destruct (float_div_int (PrimFloat.mul (literal 2) L) Nx) as [|dx] eqn:Hdx; [done|].
  destruct (float_div_int (PrimFloat.div L (literal 2)) Ny) as [|dy] eqn:Hdy; [done|].
  cbn [mbind exc_bind] in Hs.
  destruct (float_div (py_min dx dy) (PrimFloat.abs u_r)) as [|q] eqn:Hq; [done|].
  cbn [mbind exc_bind] in Hs. cbv zeta in Hs.
  destruct (r ← float_div Tend (PrimFloat.mul (PrimFloat.mul (PrimFloat.mul q 0.05) 0.1) 0.2);
            py_int r) as [|NT] eqn:HNT; [done|].
  cbn [mbind exc_bind] in Hs.
  destruct (parallel_io args) as [|pio] eqn:Hpio; [done|].
  unfold mret, exc_ret in Hs. cbn [mbind exc_bind] in Hs.
  exists Nx, Ny, dx, dy, q, NT, pio. split_and!; try done. congruence.
Qed.

Lemma float_div_int_nonzero (x y : float) (n : Z) : float_div_int x n = inr y → n ≠ 0.
Proof. intros Hdiv ->. vm_compute in Hdiv. done. Qed.

Lemma species_loop_outside (case : gmap string Value) (ys : list float) (i0 j : Z)
    (stem : string) :
  stem ∈ species_stems → j < i0 ∨ i0 + Z.of_nat (length ys) ≤ j →
  foldl add_species case (enumerate_from i0 ys) !! species_key stem j
  = case !! species_key stem j.
Proof.
  intros Hstem. revert case i0. induction ys as [|y ys IH]; intros case i0 Hj; [done|].
  cbn [enumerate_from foldl]. cbn [length] in Hj. rewrite IH by lia.
  apply add_species_other_index; [done|lia].
Qed.

Lemma insert_loop_absent (es : list (string * Value)) (d : gmap string Value) (k : string) :
  k ∉ es.*1 → foldl (λ d kv, <[kv.1 := kv.2]> d) d es !! k = d !! k.
Proof.
  revert d. induction es as [|[k0 v0] es IH]; intros d Hk; [done|].
  cbn in Hk. apply not_elem_of_cons in Hk as [Hne Hk].
  cbn [foldl]. rewrite IH by done. by apply lookup_insert_ne.
Qed.

Lemma dict_literal_lookup_NoDup (es : list (string * Value)) (k : string) (v : Value) :
  NoDup es.*1 → (k, v) ∈ es → dict_literal es !! k = Some v.
Proof.
  unfold dict_literal. generalize (∅ : gmap string Value).
  induction es as [|[k0 v0] es IH]; intros d Hnd Hin; [by apply elem_of_nil in Hin|].
  cbn in Hnd. apply NoDup_cons in Hnd as [Hk0 Hnd].
  cbn [foldl]. apply elem_of_cons in Hin as [[= -> ->]|Hin].
  - rewrite insert_loop_absent by done. apply lookup_insert_eq.
  - by apply IH.
Qed.

Lemma entries_keys_NoDup args sol_R Nx Ny NT NS dt pio :
  NoDup (entries args sol_R Nx Ny NT NS dt pio).*1.
Proof. apply (bool_decide_unpack _). vm_compute. exact I. Qed.

Lemma script_plain args sol_L sol_R case :
  script args sol_L sol_R = inr case →
  ∃ Nx Ny dx dy q NT pio,
    py_int (PrimFloat.mul (literal (2 * 400)) (scale args)) = inr Nx
    ∧ py_int (PrimFloat.mul (literal 200) (scale args)) = inr Ny
    ∧ float_div_int (PrimFloat.mul (literal 2) L) Nx = inr dx
    ∧ float_div_int (PrimFloat.div L (literal 2)) Ny = inr dy
    ∧ float_div (py_min dx dy) (PrimFloat.abs u_r) = inr q
    ∧ (r ← float_div Tend (PrimFloat.mul (PrimFloat.mul (PrimFloat.mul q 0.05) 0.1) 0.2);
       py_int r) = inr NT
    ∧ parallel_io args = inr pio
    ∧ ∀ k, is_species_key k = false →
        case !! k
        = dict_literal (entries args sol_R Nx Ny NT (NT `div` SAVE_COUNT)
            (PrimFloat.mul (PrimFloat.mul (PrimFloat.mul q 0.05) 0.1) 0.2) pio) !! k.
Proof.
  intros (Nx & Ny & dx & dy & q & NT & pio & ? & ? & ? & ? & ? & ? & ? & ->)%script_inr.
  exists Nx, Ny, dx, dy, q, NT, pio. split_and!; try done.
  intros k Hk. destruct (chemistry args); [|done].
  unfold enumerate. by apply species_loop_other.
Qed.

Lemma insert_loop_ext (es : list (string * Value)) (d d' : gmap string Value) (k : string) :
  d !! k = d' !! k →
  foldl (λ d kv, <[kv.1 := kv.2]> d) d es !! k = foldl (λ d kv, <[kv.1 := kv.2]> d) d' es !! k.
Proof.
  revert d d'. induction es as [|[k1 v1] es IH]; intros d d' Hd; [done|].
  cbn [foldl]. apply IH. cbn.
  destruct (decide (k1 = k)) as [->|Hne];
    [by rewrite !lookup_insert_eq|by rewrite !lookup_insert_ne].
Qed.

Lemma dict_literal_replace (es : list (string * Value)) (i : nat) (k0 k : string)
    (v0 v' : Value) :
  es !! i = Some (k0, v0) → k ≠ k0 →
  dict_literal (<[i := (k0, v')]> es) !! k = dict_literal es !! k.
Proof.
  unfold dict_literal. generalize (∅ : gmap string Value). revert i.
  induction es as [|[k1 v1] es IH]; intros [|i] d Hi Hne; try done.
  - cbn in Hi. simplify_eq.
    change (<[0%nat := (k0, v')]> ((k0, v0) :: es)) with ((k0, v') :: es).
    cbn [foldl]. apply insert_loop_ext. cbn. by rewrite !lookup_insert_ne.
  - cbn in Hi.
    change (<[S i := (k0, v')]> ((k1, v1) :: es)) with ((k1, v1) :: <[i := (k0, v')]> es).
    cbn [foldl]. by apply IH.
Qed.

Lemma finished_inr (r : PyException + gmap string Value) :
  finishes r = true → r = inr (finished r).
Proof. by destruct r. Qed.

(** ** Properties of the case file *)

(** X10. When the case file finishes, the cell counts [m] and [n] it stores
    are the truncations of [800 * scale] and [200 * scale] and neither is
    zero; the stored [dt] is not zero, [t_step_stop] is the truncation of
    [Tend / dt], and [t_step_save] is its floor quotient by 100, so that
    [100 * t_step_save <= t_step_stop < 100 * t_step_save + 100]. *)
Theorem grid_and_steps args sol_L sol_R case :
  script args sol_L sol_R = inr case →
  ∃ (Nx Ny NT : Z) (dt : float),
    py_int (PrimFloat.mul (literal (2 * 400)) (scale args)) = inr Nx
    ∧ py_int (PrimFloat.mul (literal 200) (scale args)) = inr Ny
    ∧ Nx ≠ 0 ∧ Ny ≠ 0
    ∧ case !! "m" = Some (DInt Nx)
    ∧ case !! "n" = Some (DInt Ny)
    ∧ case !! "dt" = Some (DFloat dt)
    ∧ PrimFloat.eqb dt 0 = false
    ∧ py_int (PrimFloat.div Tend dt) = inr NT
    ∧ case !! "t_step_stop" = Some (DInt NT)
    ∧ case !! "t_step_save" = Some (DInt (NT `div` 100))
    ∧ 100 * (NT `div` 100) ≤ NT < 100 * (NT `div` 100) + 100.
Proof.
  intros (Nx & Ny & dx & dy & q & NT & pio & HNx & HNy & Hdx & Hdy & Hq & HNT & Hpio & Hk)
    %script_plain.
  exists Nx, Ny, NT, (PrimFloat.mul (PrimFloat.mul (PrimFloat.mul q 0.05) 0.1) 0.2).
  unfold float_div in HNT.
  destruct (PrimFloat.eqb _ 0) eqn:Hdt in HNT; [done|]. cbn [mbind exc_bind] in HNT.
  rewrite !Hk by (by vm_compute).
  split_and!; try done; try (vm_compute; reflexivity).
  - by eapply float_div_int_nonzero.
  - by eapply float_div_int_nonzero.
  - pose proof (Z.mul_div_le NT 100). lia.
  - pose proof (Z.mul_succ_div_gt NT 100). lia.
Qed.

(** X10, an instance: the default command line gives 800 by 200 cells,
    373627 steps and a save every 3736 steps. *)
Lemma grid_and_steps_witness :
  script default_args gas_L gas_R = inr default_case
  ∧ default_case !! "m" = Some (DInt 800)
  ∧ default_case !! "n" = Some (DInt 200)
  ∧ default_case !! "t_step_stop" = Some (DInt 373627)
  ∧ default_case !! "t_step_save" = Some (DInt 3736).
Proof.
  destruct (grid_and_steps default_args gas_L gas_R default_case)
    as (Nx & Ny & NT & dt & _); [apply finished_inr; vm_compute; reflexivity|].
  split_and!; [apply finished_inr|..]; vm_compute; reflexivity.
Defined.

(** X11. A scale that is not a finite non-zero number stops the case file
    at its first statements: a NaN raises [ValueError] and an infinity
    [OverflowError] (both from [int]), and a zero of either sign raises
    [ZeroDivisionError] (from [2*L/Nx]). *)
Theorem special_scale args sol_L sol_R :
  match Prim2SF (scale args) with
  | S754_nan => script args sol_L sol_R = inl ValueError
  | S754_infinity _ => script args sol_L sol_R = inl OverflowError
  | S754_zero _ => script args sol_L sol_R = inl ZeroDivisionError
  | S754_finite _ _ _ => True
  end.
Proof.
  pose proof (FloatAxioms.mul_spec (literal (2 * 400)) (scale args)) as H800.
  pose proof (FloatAxioms.mul_spec (literal 200) (scale args)) as H200.
  unfold script.
  destruct (Prim2SF (scale args)) as [b|b| |s m e]; [| | |done].
  - assert (py_int (PrimFloat.mul (literal (2 * 400)) (scale args)) = inr 0) as ->
      by (unfold py_int; by rewrite H800).
    assert (py_int (PrimFloat.mul (literal 200) (scale args)) = inr 0) as ->
      by (unfold py_int; by rewrite H200).
    reflexivity.
  - assert (py_int (PrimFloat.mul (literal (2 * 400)) (scale args)) = inl OverflowError)
      as -> by (unfold py_int; by rewrite H800).
    reflexivity.
  - assert (py_int (PrimFloat.mul (literal (2 * 400)) (scale args)) = inl ValueError)
      as -> by (unfold py_int; by rewrite H800).
    reflexivity.
Qed.

(** X12. A scale so small that one of the two cell counts truncates to zero
    stops the case file with [ZeroDivisionError] ([x] is the float of [Nx],
    which [2*L/Nx] divides by). *)
Theorem too_small_scale args sol_L sol_R (Nx Ny : Z) (x : float) :
  py_int (PrimFloat.mul (literal (2 * 400)) (scale args)) = inr Nx →
  py_int (PrimFloat.mul (literal 200) (scale args)) = inr Ny →
  int_to_float Nx = inr x →
  Nx = 0 ∨ Ny = 0 →
  script args sol_L sol_R = inl ZeroDivisionError.
Proof.
  intros HNx HNy Hx Hzero. unfold script. rewrite HNx, HNy. cbn [mbind exc_bind].
  destruct (float_div_int (PrimFloat.mul (literal 2) L) Nx) as [e|dx] eqn:Hdx.
  - unfold float_div_int in Hdx. rewrite Hx in Hdx. cbn [mbind exc_bind] in Hdx.
    destruct (PrimFloat.eqb x 0); by simplify_eq.
  - cbn [mbind exc_bind]. destruct Hzero as [-> | ->]; [|reflexivity].
    by apply float_div_int_nonzero in Hdx.
Qed.

(** X12, an instance: [--scale 0.004] gives 3 cells in x and none in y. *)
Lemma too_small_scale_witness :
  py_int (PrimFloat.mul (literal (2 * 400)) (scale (scaled_args 0.004))) = inr 3
  ∧ py_int (PrimFloat.mul (literal 200) (scale (scaled_args 0.004))) = inr 0
  ∧ int_to_float 3 = inr 3%float
  ∧ script (scaled_args 0.004) gas_L gas_R = inl ZeroDivisionError.
Proof.
  split_and!; [vm_compute; reflexivity..|].
  apply (too_small_scale (scaled_args 0.004) gas_L gas_R 3 0 3);
    [vm_compute; reflexivity..|by right].
Defined.

(** X13. With chemistry on, a finished case file holds for every species
    [i + 1] of the left gas state the flag [chem_wrt_Y(i+1) = 'T'] and the
    mass fraction [sol_L.Y[i]] under both [patch_icpp(1)%Y(i+1)] and
    [patch_icpp(2)%Y(i+1)]; it holds no key of these three families for any
    other index, and 68 + 3 * len(sol_L.Y) entries in all. *)
Theorem species_entries args sol_L sol_R case :
  script args sol_L sol_R = inr case →
  chemistry args = true →
  (∀ (i : nat) (y : float), Y sol_L !! i = Some y →
     case !! species_key "chem_wrt_Y(" (Z.of_nat i) = Some (DStr "T")
     ∧ case !! species_key "patch_icpp(1)%Y(" (Z.of_nat i) = Some (DFloat y)
     ∧ case !! species_key "patch_icpp(2)%Y(" (Z.of_nat i) = Some (DFloat y))
  ∧ (∀ (stem : string) (j : Z), stem ∈ species_stems →
       j < 0 ∨ len (Y sol_L) ≤ j → case !! species_key stem j = None)
  ∧ stdpp.base.size case = (68 + 3 * length (Y sol_L))%nat.
Proof.
  intros (Nx & Ny & dx & dy & q & NT & pio & _ & _ & _ & _ & _ & _ & _ & ->)%script_inr ->.
  unfold enumerate. split_and!.
  - intros i y Hi. split_and!.
    + exact (species_loop_lookup _ _ 0 i y "chem_wrt_Y(" ltac:(stem) Hi).
    + exact (species_loop_lookup _ _ 0 i y "patch_icpp(1)%Y(" ltac:(stem) Hi).
    + exact (species_loop_lookup _ _ 0 i y "patch_icpp(2)%Y(" ltac:(stem) Hi).
  - intros stem j Hstem Hj. rewrite species_loop_outside by (done || unfold len in Hj; lia).
    by apply base_no_species, species_key_is_species.
  - rewrite species_loop_size, base_size; [done|].
    intros stem j Hstem _. by apply base_no_species, species_key_is_species.
Qed.

(** X13, an instance: the two species of the example gas state. *)
Lemma species_entries_witness :
  script default_args gas_L gas_R = inr default_case
  ∧ chemistry default_args = true
  ∧ default_case !! "chem_wrt_Y(2)" = Some (DStr "T")
  ∧ default_case !! "patch_icpp(1)%Y(2)" = Some (DFloat 0.75)
  ∧ default_case !! "patch_icpp(2)%Y(2)" = Some (DFloat 0.75)
  ∧ default_case !! "chem_wrt_Y(3)" = None
  ∧ stdpp.base.size default_case = 74%nat.
Proof.
  destruct (species_entries default_args gas_L gas_R default_case)
    as (Hin & Hout & Hsize); [apply finished_inr; vm_compute; reflexivity|reflexivity|].
  destruct (Hin 1%nat 0.75%float) as (Hflag & Hone & Htwo); [reflexivity|].
  split_and!;
    [apply finished_inr; vm_compute; reflexivity|reflexivity
    |exact Hflag|exact Hone|exact Htwo| |exact Hsize].
  apply (Hout "chem_wrt_Y(" 2); [stem|right; vm_compute; discriminate].
Defined.

(** X14. [--no-chem] changes nothing but the chemistry: the case file
    raises the same exception with and without it, and when it finishes the
    dict without chemistry has the 68 entries of the display, none of a
    species, ['chemistry': 'F'], and every other entry as in the dict with
    the flag left as given. *)
Theorem no_chem args sol_L sol_R :
  match script args sol_L sol_R with
  | inl e => script (without_chemistry args) sol_L sol_R = inl e
  | inr case =>
      ∃ case', script (without_chemistry args) sol_L sol_R = inr case'
        ∧ stdpp.base.size case' = 68%nat
        ∧ (∀ k, is_species_key k = true → case' !! k = None)
        ∧ case' !! "chemistry" = Some (DStr "F")
        ∧ ∀ k, is_species_key k = false → k ≠ "chemistry" → case' !! k = case !! k
  end.
Proof.
  unfold script, parallel_io. cbn [without_chemistry scale mfc chemistry].
  destruct (py_int (PrimFloat.mul (literal (2 * 400)) (scale args))) as [|Nx]; [done|].
  destruct (py_int (PrimFloat.mul (literal 200) (scale args))) as [|Ny]; [done|].
  cbn [mbind exc_bind].
  destruct (float_div_int (PrimFloat.mul (literal 2) L) Nx) as [|dx]; [done|].
  destruct (float_div_int (PrimFloat.div L (literal 2)) Ny) as [|dy]; [done|].
  cbn [mbind exc_bind].
  destruct (float_div (py_min dx dy) (PrimFloat.abs u_r)) as [|q]; [done|].
  cbn [mbind exc_bind]. cbv zeta.
  destruct (r ← float_div Tend (PrimFloat.mul (PrimFloat.mul (PrimFloat.mul q 0.05) 0.1) 0.2);
            py_int r) as [|NT]; [done|].
  cbn [mbind exc_bind].
  destruct (mfc args) as [| | | | | |members]; try done.
  unfold mret, exc_ret. cbn [mbind exc_bind].
  eexists. split; [reflexivity|]. split_and!.
  - apply base_size.
  - intros k Hk. by apply base_no_species.
  - vm_compute. reflexivity.
  - intros k Hk Hne.
    transitivity (dict_literal (entries args sol_R Nx Ny NT (NT `div` SAVE_COUNT)
                    (PrimFloat.mul (PrimFloat.mul (PrimFloat.mul q 0.05) 0.1) 0.2)
                    (if truthy (dict_get members "mpi" (JBool true)) then "T" else "F"))
                  !! k).
    + exact (dict_literal_replace
               (entries args sol_R Nx Ny NT (NT `div` SAVE_COUNT)
                  (PrimFloat.mul (PrimFloat.mul (PrimFloat.mul q 0.05) 0.1) 0.2)
                  (if truthy (dict_get members "mpi" (JBool true)) then "T" else "F"))
               32 "chemistry" k
               (DStr (if negb (chemistry args) then "F" else "T")) (DStr "F")
               eq_refl Hne).
    + destruct (chemistry args); [|done].
      unfold enumerate. by rewrite species_loop_other.
Qed.

Lemma dict_get_absent (members : list (string * Json)) (key : string) (default : Json) :
  key ∉ members.*1 → dict_get members key default = default.
Proof.
  unfold dict_get. revert default.
  induction members as [|[k j] members IH]; intros default Hkey; [done|].
  cbn in Hkey. apply not_elem_of_cons in Hkey as [Hne Hkey].
  cbn [foldl fst snd]. rewrite bool_decide_eq_false_2 by done. by apply IH.
Qed.

Lemma dict_get_last (before after : list (string * Json)) (key : string)
    (default j : Json) :
  key ∉ after.*1 → dict_get (before ++ (key, j) :: after) key default = j.
Proof.
  intros Hafter. unfold dict_get. rewrite foldl_app. cbn [foldl fst snd].
  rewrite bool_decide_eq_true_2 by done. by apply dict_get_absent.
Qed.

(** Either no member has the key, or one of them is the last that has it. *)
Lemma last_member (members : list (string * Json)) (key : string) :
  key ∉ members.*1
  ∨ ∃ before j after, members = before ++ (key, j) :: after ∧ key ∉ after.*1.
Proof.
  induction members as [|[k j] members IH]; [left; apply not_elem_of_nil|].
  destruct IH as [Hno|(before & j' & after & -> & Hafter)].
  - destruct (decide (k = key)) as [->|Hne].
    + right. by exists [], j, members.
    + left. cbn. by apply not_elem_of_cons.
  - right. by exists ((k, j) :: before), j', after.
Qed.

(** X15. The case file can only finish when [--mfc] is a JSON object, and
    then [parallel_io] is ['T'] or ['F']: ['T'] when the object has no
    [mpi] member, and otherwise by the truth value of its [mpi] member, the
    last one if there are several, wherever it stands among the other
    members.  One of the two cases always applies. *)
Theorem parallel_io_flag args sol_L sol_R case :
  script args sol_L sol_R = inr case →
  ∃ members : list (string * Json),
    mfc args = JObj members
    ∧ ("mpi" ∉ members.*1 → case !! "parallel_io" = Some (DStr "T"))
    ∧ (∀ before j after, members = before ++ ("mpi", j) :: after → "mpi" ∉ after.*1 →
         case !! "parallel_io" = Some (DStr (if truthy j then "T" else "F")))
    ∧ ("mpi" ∉ members.*1
       ∨ ∃ before j after, members = before ++ ("mpi", j) :: after ∧ "mpi" ∉ after.*1).
Proof.
  intros (Nx & Ny & dx & dy & q & NT & pio & _ & _ & _ & _ & _ & _ & Hpio & Hk)
    %script_plain.
  unfold parallel_io in Hpio.
  destruct (mfc args) as [| | | | | |members]; try done.
  exists members. rewrite Hk by (by vm_compute).
  assert (dict_literal (entries args sol_R Nx Ny NT (NT `div` SAVE_COUNT)
            (PrimFloat.mul (PrimFloat.mul (PrimFloat.mul q 0.05) 0.1) 0.2) pio)
          !! "parallel_io" = Some (DStr pio)) as -> by (vm_compute; reflexivity).
  simplify_eq. split_and!.
  - done.
  - intros Hno. by rewrite dict_get_absent.
  - intros before j after -> Hafter. by rewrite dict_get_last.
  - apply last_member.
Qed.

(** X15, an instance: the toolchain state [{"mpi": false, "gpu": true}]. *)
Lemma parallel_io_flag_witness :
  script serial_args gas_L gas_R = inr (finished (script serial_args gas_L gas_R))
  ∧ finished (script serial_args gas_L gas_R) !! "parallel_io" = Some (DStr "F").
Proof.
  assert (script serial_args gas_L gas_R = inr (finished (script serial_args gas_L gas_R)))
    as Hs by (apply finished_inr; vm_compute; reflexivity).
  split; [exact Hs|].
  destruct (parallel_io_flag serial_args gas_L gas_R _ Hs) as (members & Hm & _ & Hlast & _).
  injection Hm as <-.
  apply (Hlast [] (JBool false) [("gpu", JBool true)] eq_refl).
  cbn. apply not_elem_of_cons. split; [discriminate|apply not_elem_of_nil].
Defined.

(** X16. Both patches are given one thermodynamic state: the pressure and
    the density of the right gas state and the composition of the left one.
    The pressure and density of the left state and the composition of the
    right one reach no entry. *)
Theorem patches_share_state args sol_L sol_R case :
  script args sol_L sol_R = inr case →
  case !! "patch_icpp(1)%pres" = Some (DFloat (P sol_R))
  ∧ case !! "patch_icpp(2)%pres" = Some (DFloat (P sol_R))
  ∧ case !! "patch_icpp(1)%alpha_rho(1)" = Some (DFloat (density sol_R))
  ∧ case !! "patch_icpp(2)%alpha_rho(1)" = Some (DFloat (density sol_R))
  ∧ (∀ i : Z, case !! species_key "patch_icpp(1)%Y(" i
              = case !! species_key "patch_icpp(2)%Y(" i)
  ∧ ∀ (ys : list float) (p d : float),
      script args {| Y := Y sol_L; P := p; density := d |}
                  {| Y := ys; P := P sol_R; density := density sol_R |}
      = inr case.
Proof.
  intros Hs. split_and!.
  1-4: apply script_plain in Hs
         as (Nx & Ny & dx & dy & q & NT & pio & _ & _ & _ & _ & _ & _ & _ & Hk);
       rewrite Hk by (by vm_compute); vm_compute; reflexivity.
  - apply script_inr in Hs
      as (Nx & Ny & dx & dy & q & NT & pio & _ & _ & _ & _ & _ & _ & _ & ->).
    intros i. destruct (chemistry args).
    + unfold enumerate.
      destruct (decide (0 ≤ i < len (Y sol_L))) as [Hi|Hi].
      * destruct (lookup_lt_is_Some_2 (Y sol_L) (Z.to_nat i)) as [y Hy];
          [unfold len in Hi; lia|].
        pose proof (species_loop_lookup
                      (dict_literal (entries args sol_R Nx Ny NT (NT `div` SAVE_COUNT)
                         (PrimFloat.mul (PrimFloat.mul (PrimFloat.mul q 0.05) 0.1) 0.2) pio))
                      (Y sol_L) 0 (Z.to_nat i) y) as Hl.
        rewrite Z.add_0_l, Z2Nat.id in Hl by lia.
        rewrite !Hl by (done || stem). done.
      * rewrite !species_loop_outside by (stem || unfold len in Hi; lia).
        rewrite !base_no_species by (apply species_key_is_species; stem). done.
    + rewrite !base_no_species by (apply species_key_is_species; stem). done.
  - intros ys p d. exact Hs.
Qed.

(** X16, an instance: the example gas states. *)
Lemma patches_share_state_witness :
  script default_args gas_L gas_R = inr default_case
  ∧ default_case !! "patch_icpp(1)%pres" = Some (DFloat 35594)
  ∧ default_case !! "patch_icpp(2)%pres" = Some (DFloat 35594)
  ∧ default_case !! "patch_icpp(1)%Y(1)" = default_case !! "patch_icpp(2)%Y(1)".
Proof.
  destruct (patches_share_state default_args gas_L gas_R default_case)
    as (Hp1 & Hp2 & _ & _ & HY & _); [apply finished_inr; vm_compute; reflexivity|].
  split_and!; [apply finished_inr; vm_compute; reflexivity|exact Hp1|exact Hp2|exact (HY 0)].
Defined.

(** X17. No entry of the dict display is lost: its 68 keys are distinct,
    and a finished case file holds every one of them with the value the
    display gives it (the chemistry loop overwrites none), and holds no key
    besides these and those of the species. *)
Theorem display_entries_kept args sol_L sol_R case :
  script args sol_L sol_R = inr case →
  ∃ (Nx Ny NT : Z) (dt : float) (pio : string),
    let display := entries args sol_R Nx Ny NT (NT `div` SAVE_COUNT) dt pio in
    py_int (PrimFloat.mul (literal (2 * 400)) (scale args)) = inr Nx
    ∧ py_int (PrimFloat.mul (literal 200) (scale args)) = inr Ny
    ∧ parallel_io args = inr pio
    ∧ NoDup display.*1
    ∧ length display = 68%nat
    ∧ (∀ k v, (k, v) ∈ display → case !! k = Some v)
    ∧ ∀ k, is_Some (case !! k) → k ∈ display.*1 ∨ is_species_key k = true.
Proof.
  intros (Nx & Ny & dx & dy & q & NT & pio & HNx & HNy & _ & _ & _ & _ & Hpio & Hk)
    %script_plain.
  exists Nx, Ny, NT, (PrimFloat.mul (PrimFloat.mul (PrimFloat.mul q 0.05) 0.1) 0.2), pio.
  pose proof (entries_keys_NoDup args sol_R Nx Ny NT (NT `div` SAVE_COUNT)
                (PrimFloat.mul (PrimFloat.mul (PrimFloat.mul q 0.05) 0.1) 0.2) pio) as Hnd.
  pose proof (entries_keys_plain args sol_R Nx Ny NT (NT `div` SAVE_COUNT)
                (PrimFloat.mul (PrimFloat.mul (PrimFloat.mul q 0.05) 0.1) 0.2) pio) as Hplain.
  rewrite forallb_forall in Hplain.
  cbv zeta. split_and!; try done.
  - intros k v Hin. rewrite Hk.
    + by apply dict_literal_lookup_NoDup.
    + apply negb_true_iff, Hplain, list_elem_of_In, list_elem_of_fmap.
      by exists (k, v).
  - intros k [v Hv]. destruct (is_species_key k) eqn:Hkey; [by right|left].
    rewrite Hk in Hv by done. by eapply dict_literal_lookup_Some.
Qed.

(** X17, an instance: the entry ['weno_order': 5] of the default run. *)
Lemma display_entries_kept_witness :
  script default_args gas_L gas_R = inr default_case
  ∧ default_case !! "weno_order" = Some (DInt 5).
Proof.
  destruct (display_entries_kept default_args gas_L gas_R default_case)
    as (Nx & Ny & NT & dt & pio & _ & _ & _ & _ & _ & Hin & _);
    [apply finished_inr; vm_compute; reflexivity|].
  split; [apply finished_inr; vm_compute; reflexivity|].
  apply Hin. unfold entries. repeat constructor.
Defined.

End CasePyFacts.

(** * The case file and the generator together *)

Section CrossFile.
Context {Sample Case : Type} `{!CaseAPI Sample Case}.
Variable str : Sample → string.

(** X18. The case file and the generated branch name the same patch: the
    integer the dict stores under [patch_icpp(2)%hcid] is the selector of
    the guard line that opens [ic_def.f90]; this patch spans [0, L] in x
    (its centroid less and plus half its length); and the second line of
    [ic_def.f90] divides [x_cc(0)] by the literal [0.12d0], whose value as
    a double is that length: the line assigns to [i_offset] the truncation
    of [x_cc(0) / length_x * (nx - 1)]. *)
Theorem patch_matches_branch (cargs : CasePy.Namespace) (sol_L sol_R : CasePy.Solution)
    (case : gmap string CasePy.Value) (args : Namespace) (c : Case)
    (fs : gmap string string) :
  CasePy.script cargs sol_L sol_R = inr case →
  first_failure c (seqZ 1 16) = None →
  ∃ (hcid nx : Z) (xc len : float) σ content rest,
    case !! "patch_icpp(2)%hcid" = Some (CasePy.DInt hcid)
    ∧ case !! "patch_icpp(2)%x_centroid" = Some (CasePy.DFloat xc)
    ∧ case !! "patch_icpp(2)%length_x" = Some (CasePy.DFloat len)
    ∧ run (main str args) c fs = (Ok (), σ)
    ∧ st_nx σ = Some nx
    ∧ st_files σ !! ic_def_path = Some content
    ∧ split_lines content
      = ("case (" +:+ pretty hcid +:+ ")")
        :: ("    i_offset = int(x_cc(0)/" +:+ "0.12d0" +:+ "*" +:+ pretty (nx - 1) +:+ ")")
        :: rest
    ∧ double_literal "0.12d0" = Some len
    ∧ "    i_offset = int(x_cc(0)/" +:+ "0.12d0" +:+ "*" +:+ pretty (nx - 1) +:+ ")"
      = "    i_offset = " +:+
        show (FToInt (FMul (FDiv (FVar "x_cc(0)") (FDouble "0.12d0" len)) (FInt (nx - 1))))
    ∧ (∀ (env : gmap string fval) (x : float), env !! "x_cc(0)" = Some (VReal x) →
         eval env (FToInt (FMul (FDiv (FVar "x_cc(0)") (FDouble "0.12d0" len))
                                (FInt (nx - 1))))
         = VInt <$> fortran_int (PrimFloat.mul (PrimFloat.div x len) (float_of_Z (nx - 1))))
    ∧ PrimFloat.sub xc (PrimFloat.div len 2) = 0%float
    ∧ PrimFloat.add xc (PrimFloat.div len 2) = len.
Proof.
  intros (Nx & Ny & dx & dy & q & NT & pio & _ & _ & _ & _ & _ & _ & _ & Hk)
    %CasePyFacts.script_plain Hok.
  exists 666, (nx_at c 16), (PrimFloat.div L (CasePy.literal 2)), L.
  eexists _, _, _. rewrite !Hk by (by vm_compute).
  split; [vm_compute; reflexivity|]. split; [vm_compute; reflexivity|].
  split; [vm_compute; reflexivity|]. split; [by apply main_ok|].
  split; [done|].
  split; [cbn [st_files]; apply lookup_def_artifact|].
  split; [rewrite split_render_branch; unfold branch_lines; reflexivity|].
  split; [vm_compute; reflexivity|].
  split; [reflexivity|].
  split.
  { intros env x Hx. cbn [eval]. rewrite Hx. reflexivity. }
  split; vm_compute; reflexivity.
Qed.

End CrossFile.

(** X18, an instance: the default case file and the one-sample dataset. *)
Lemma patch_matches_branch_witness :
  CasePy.script CasePy.default_args CasePy.gas_L CasePy.gas_R = inr CasePy.default_case
  ∧ first_failure ds_single (seqZ 1 16) = None
  ∧ CasePy.default_case !! "patch_icpp(2)%hcid" = Some (CasePy.DInt 666)
  ∧ CasePy.default_case !! "patch_icpp(2)%length_x" = Some (CasePy.DFloat 0.12)
  ∧ ∃ σ content rest,
      run (main str_Z default_args) ds_single ∅ = (Ok (), σ)
      ∧ st_files σ !! ic_def_path = Some content
      ∧ split_lines content
        = "case (666)" :: "    i_offset = int(x_cc(0)/0.12d0*0)" :: rest.
Proof.
  assert (CasePy.script CasePy.default_args CasePy.gas_L CasePy.gas_R
          = inr CasePy.default_case) as Hs
    by (apply CasePyFacts.finished_inr; vm_compute; reflexivity).
  assert (first_failure ds_single (seqZ 1 16) = None) as Hok by (vm_compute; reflexivity).
  destruct (patch_matches_branch str_Z _ _ _ _ default_args ds_single ∅ Hs Hok)
    as (hcid & nx & xc & len & σ & content & rest
        & Hid & _ & Hlen & Hrun & Hnx & Hfile & Hlines & _).
  split_and!; [exact Hs|exact Hok|vm_compute; reflexivity..|].
  exists σ, content, rest. split_and!; [exact Hrun|exact Hfile|].
  assert (Some (CasePy.DInt hcid) = Some (CasePy.DInt 666)) as [= ->]
    by (rewrite <-Hid; vm_compute; reflexivity).
  assert (Some nx = Some 1) as [= ->].
  { rewrite <-Hnx.
    transitivity (st_nx (run (main str_Z default_args) ds_single ∅).2);
      [by rewrite Hrun|vm_compute; reflexivity]. }
  rewrite Hlines. reflexivity.
Defined.
